(** * The add-components engine of bit, embedded in Rocq

    Source: [src/consumer/component-ops/add-components/add-components.js].

    The class [AddComponents] resolves the paths given by the user into
    components (an identity and a list of files), reconciles them with the
    tracking index (the bit-map) and hands the survivors to it.  The
    functions below follow the methods of that class one by one and keep
    their names.  Everything the class imports from elsewhere (the bit-map,
    the consumer, the [BitId] class, node's [path] and [fs], glob, the
    [ignore] package, string-format) is an interface here: a type class
    whose fields are the functions the source calls. *)

From stdpp Require Import base option list strings gmap.
From Stdlib Require Import Ascii String.

Local Open Scope string_scope.
Local Open Scope list_scope.

(** ** Values thrown and returned *)

(** A promise that has settled, or a call that returned or threw. *)
Inductive result (E A : Type) : Type :=
| Ok (a : A)
| Throw (e : E).
Arguments Ok {E A} a.
Arguments Throw {E A} e.

Definition rbind {E A B} (r : result E A) (k : A -> result E B) : result E B :=
  match r with
  | Ok a => k a
  | Throw e => Throw e
  end.

Notation "'let!' x ':=' r 'in' k" := (rbind r (fun x => k))
  (at level 10, x pattern, r at level 100, k at level 200).

Definition is_ok {E A} (r : result E A) : bool :=
  match r with Ok _ => true | Throw _ => false end.

(** [l.map(f)] where [f] may throw: the first throw, in the order of the
    array, ends the loop. *)
Fixpoint mapM {E A B} (f : A -> result E B) (l : list A) : result E (list B) :=
  match l with
  | [] => Ok []
  | a :: l' => let! b := f a in let! bs := mapM f l' in Ok (b :: bs)
  end.

(** [Promise.all] over promises that have all settled and whose reactions
    run in the order of the array: the first rejection of the array wins. *)
Fixpoint Promise_all {E A} (ps : list (result E A)) : result E (list A) :=
  match ps with
  | [] => Ok []
  | p :: ps' => let! a := p in let! r := Promise_all ps' in Ok (a :: r)
  end.

(** ** JavaScript helpers *)

(** Truthiness of a string: the empty string is falsy. *)
Definition truthy (s : string) : bool :=
  match s with EmptyString => false | _ => true end.

(** Truthiness of a [?string]: [undefined] and the empty string are falsy. *)
Definition truthy_opt (o : option string) : bool :=
  match o with Some s => truthy s | None => false end.

Definition str_eqb (a b : string) : bool := String.eqb a b.

(** [array.includes(x)] on an array of strings. *)
Definition includes (l : list string) (x : string) : bool :=
  existsb (str_eqb x) l.

(** [str.includes(sub)]. *)
Fixpoint str_includes (sub s : string) : bool :=
  String.prefix sub s ||
  match s with
  | EmptyString => false
  | String _ s' => str_includes sub s'
  end.

(** [R.uniq]: the first occurrence of every element, in order. *)
Fixpoint uniq (l : list string) : list string :=
  match l with
  | [] => []
  | x :: l' => x :: List.filter (fun y => negb (str_eqb x y)) (uniq l')
  end.

(** A plain object used as a map from strings: its own keys in the order
    they were first set (the order [Object.keys] lists them in, for keys
    that are not array indices). *)
Definition obj (V : Type) : Type := list (string * V).

Fixpoint obj_get {V} (o : obj V) (k : string) : option V :=
  match o with
  | [] => None
  | (k', v) :: o' => if str_eqb k k' then Some v else obj_get o' k
  end.

(** [o[k] = v] *)
Fixpoint obj_set {V} (o : obj V) (k : string) (v : V) : obj V :=
  match o with
  | [] => [(k, v)]
  | (k', v') :: o' =>
      if str_eqb k k' then (k', v) :: o' else (k', v') :: obj_set o' k v
  end.

(** [delete o[k]] *)
Definition obj_delete {V} (o : obj V) (k : string) : obj V :=
  List.filter (fun kv => negb (str_eqb k (fst kv))) o.

Definition obj_keys {V} (o : obj V) : list string := List.map fst o.

(** [lodash.groupby(l, key)]: the elements of each key in the order of
    the array, the keys in the order of their first element. *)
Fixpoint groupby_from {A} (key : A -> string) (l : list A) (acc : obj (list A))
  : obj (list A) :=
  match l with
  | [] => acc
  | a :: l' =>
      let k := key a in
      let g := match obj_get acc k with Some g => g | None => [] end in
      groupby_from key l' (obj_set acc k (g ++ [a]))
  end.

Definition groupby {A} (key : A -> string) (l : list A) : obj (list A) :=
  groupby_from key l [].

(** ** The data of the source *)

Inductive ComponentOrigin := AUTHORED | IMPORTED | NESTED.

Definition origin_eqb (a b : ComponentOrigin) : bool :=
  match a, b with
  | AUTHORED, AUTHORED | IMPORTED, IMPORTED | NESTED, NESTED => true
  | _, _ => false
  end.

(** [ComponentMapFile] *)
Record ComponentMapFile := mkFile {
  relativePath : string;
  test : bool;
  name : string
}.

(** What the source reads of a [ComponentMap]. *)
Record ComponentMap := mkComponentMap {
  origin : ComponentOrigin;
  rootDir : option string;
  cm_files : list ComponentMapFile
}.

(** [AddResult] *)
Record AddResult := mkAddResult {
  id : string;
  res_files : list ComponentMapFile
}.

(** [AddActionResults]; the warnings object maps the string of an owning
    identity to the relative paths taken away from the new component. *)
Record AddActionResults := mkAddActionResults {
  addedComponents : list AddResult;
  res_warnings : gmap string (list string)
}.

(** [AddProps] *)
Record AddProps := mkAddProps {
  p_componentPaths : list string;
  p_id : option string;
  p_main : option string;
  p_namespace : option string;
  p_tests : option (list string);
  p_exclude : option (list string);
  p_override : bool;
  p_trackDirFeature : option bool;
  p_origin : option ComponentOrigin;
  p_configuredConsumer : bool
}.

(** The fields of an [AddComponents] instance that stay fixed after the
    constructor ([warnings], [ignoreList] and [gitIgnore] are threaded
    explicitly). *)
Record AddComponents := mkAddComponents {
  componentPaths : list string;
  this_id : option string;
  main : option string;
  namespace : option string;
  tests : list string;
  exclude : list string;
  override : bool;
  trackDirFeature : bool;
  this_origin : ComponentOrigin;
  configuredConsumer : bool
}.

Section Engine.

(** The identity class, the index and what they are used through. *)
Context {BitId BitMap : Type}.

(** [AddedComponent] *)
Record AddedComponent := mkAdded {
  componentId : BitId;
  files : list ComponentMapFile;
  mainFile : option string;
  trackDir : option string
}.

(** The exceptions of [./exceptions], [GeneralError] and
    [VersionShouldBeRemoved], each with its constructor's arguments.
    [TypeError] is the engine's own: reading a property of [undefined],
    or calling it. *)
Inductive AddError :=
| PathsNotExist (paths : list string)
| MissingComponentIdForImportedComponent (id : string)
| IncorrectIdForImportedComponent (importedId newId filePath : string)
| NoFiles (ignoredFiles : list string)
| DuplicateIds (componentObject : obj (list AddedComponent))
| EmptyDirectory
| TestIsDirectory (path : string)
| ExcludedMainFile (path : string)
| MainFileIsDir (path : string)
| VersionShouldBeRemoved (id : option string)
| GeneralError (existingComponentId : BitId)
| TypeError.

(** What the engine hands to the index. *)
Inductive IndexWrite :=
| AddComponent (componentId : BitId) (files : list ComponentMapFile)
    (mainFile : option string) (trackDir : option string)
    (origin : ComponentOrigin) (override : bool)
| AddFilesToComponent (componentId : BitId) (files : list ComponentMapFile).

(** [BitId] (bit-id/bit-id.js, not among the sources). *)
Class BitIdApi := {
  toString : BitId -> string;
  toStringWithoutVersion : BitId -> string;
  toStringWithoutScopeAndVersion : BitId -> string;
  isEqual : BitId -> BitId -> bool;
  hasVersion : BitId -> bool;
  version : BitId -> option string;
  (** [BitId.parse(id, false)] *)
  parse : string -> BitId;
  (** [BitId.getValidBitId(box, name)]; [box] may be [undefined] *)
  getValidBitId : option string -> option string -> BitId;
  (** [BitId.getVersionOnlyFromString(this.id)]; [this.id] is a [?string] *)
  getVersionOnlyFromString : option string -> option string
}.

(** The tracking index (consumer/bit-map, not among the sources). *)
Class BitMapApi := {
  (** [getComponentIfExist(id, { ignoreScopeAndVersion: true })] *)
  getComponentIfExist : BitMap -> BitId -> option ComponentMap;
  (** [getComponentIdByPath(path, false)] *)
  getComponentIdByPath : BitMap -> string -> option BitId;
  getComponent : BitMap -> BitId -> ComponentMap;
  (** [getExistingBitId(id, false)] *)
  getExistingBitId : BitMap -> string -> option BitId;
  (** the values of [getAllComponents(COMPONENT_ORIGINS.IMPORTED)] *)
  getAllImportedComponents : BitMap -> list ComponentMap;
  (** [getConfigDirsAndFilesToIgnore(consumerPath)]: dirs, files *)
  getConfigDirsAndFilesToIgnore : BitMap -> string -> list string * list string;
  (** [addComponent] and [addFilesToComponent] change the index and
      return the component map they stored *)
  applyWrite : BitMap -> IndexWrite -> BitMap * ComponentMap
}.

(** The consumer (workspace). *)
Class ConsumerApi := {
  getPath : string;
  getPathRelativeToConsumer : string -> string;
  toAbsolutePath : string -> string;
  (** [(await loadComponentFromModel(id)).getAllDependenciesCloned()
      .getSourcesPaths()] *)
  dependenciesSourcesPaths : BitId -> list string
}.

(** node's [path] and [fs], glob, [ignore], string-format and the
    helpers of [utils]. *)
Class SystemApi := {
  existsSync : string -> bool;
  fs_existsSync : string -> bool;
  isDir : string -> bool;
  glob : string -> list string;
  (** [glob(pattern, { cwd, nodir: true })] *)
  glob_nodir : string -> string -> list string;
  isAutoGeneratedFile : string -> bool;
  isSupportedExtension : string -> bool;
  (** [format(template, calculateFileInfo(file))] *)
  formatWithFileInfo : string -> string -> string;
  (** [ignore().add(patterns).ignores(path)] *)
  ignores : list string -> string -> bool;
  getMissingTestFiles : list string -> list string;
  retrieveIgnoreList : string -> list string;
  arrayDiff : list string -> list string -> list string;
  pathNormalizeToLinux : string -> string;
  (** [pathJoinLinux(...parts)]; a part may be [undefined] *)
  pathJoinLinux : list (option string) -> string;
  path_join : string -> string -> string;
  path_resolve : string -> string;
  path_normalize : string -> string;
  path_basename : string -> string;
  path_dirname : string -> string;
  (** [path.parse(p).dir] and [path.parse(p).name] *)
  path_parse_dir : string -> string;
  path_parse_name : string -> string;
  (** [p.split(path.sep)] *)
  split_sep : string -> list string;
  VERSION_DELIMITER : string;
  DEFAULT_DIST_DIRNAME : string
}.

Context `{ids : BitIdApi} `{index : BitMapApi} `{consumer : ConsumerApi} `{sys : SystemApi}.

(** [ignore().add(patterns).filter(paths)] *)
Definition gitIgnore_filter (patterns paths : list string) : list string :=
  List.filter (fun p => negb (ignores patterns p)) paths.

(** *** validatePaths *)

(** The loop of [validatePaths], from the stats collected so far. *)
Fixpoint validatePaths_from (fileArray : list string) (componentPathsStats : obj bool)
  : result AddError (obj bool) :=
  match fileArray with
  | [] => Ok componentPathsStats
  | componentPath :: rest =>
      if negb (existsSync componentPath)
      then Throw (PathsNotExist [componentPath])
      else validatePaths_from rest
             (obj_set componentPathsStats componentPath (isDir componentPath))
  end.

Definition validatePaths (fileArray : list string) : result AddError (obj bool) :=
  validatePaths_from fileArray [].

(** *** validateNoDuplicateIds *)

Definition duplicateIds (addComponents : list AddedComponent) : obj (list AddedComponent) :=
  List.filter (fun kg => Nat.ltb 1 (List.length (snd kg)))
    (groupby (fun c => toString (componentId c)) addComponents).

Definition validateNoDuplicateIds (addComponents : list AddedComponent)
  : result AddError unit :=
  match duplicateIds addComponents with
  | [] => Ok tt
  | dups => Throw (DuplicateIds dups)
  end.

(** *** _getIdAccordingToExistingComponent *)

Definition opt_str_eqb (a b : option string) : bool :=
  match a, b with
  | Some x, Some y => str_eqb x y
  | None, None => true
  | _, _ => false
  end.

Definition _getIdAccordingToExistingComponent (this : AddComponents) (bitMap : BitMap)
    (currentId : string) : result AddError BitId :=
  let existingComponentId := getExistingBitId bitMap currentId in
  match existingComponentId with
  | Some existing =>
      if origin_eqb (origin (getComponent bitMap existing)) NESTED
      then Throw (GeneralError existing)
      else
        if str_includes VERSION_DELIMITER currentId
        then
          if negb (hasVersion existing)
             || negb (opt_str_eqb (version existing)
                        (getVersionOnlyFromString (this_id this)))
          then Throw (VersionShouldBeRemoved (this_id this))
          else Ok existing
        else Ok existing
  | None =>
      if str_includes VERSION_DELIMITER currentId
      then Throw (VersionShouldBeRemoved (this_id this))
      else Ok (parse currentId)
  end.

(** *** getFilesAccordingToDsl *)

(** The instance's [gitIgnore] is [ignore().add(ignoreList)]: it is passed
    as the list of patterns it was built from. *)
Definition getFilesAccordingToDsl (gitIgnore : list string)
    (files filesWithPotentialDsl : list string) : list string :=
  let filesListAllMatches :=
    List.map (fun dsl =>
      List.map (fun file =>
        let generatedFile := formatWithFileInfo dsl file in
        let matches := glob generatedFile in
        let matchesAfterGitIgnore := gitIgnore_filter gitIgnore matches in
        List.filter fs_existsSync matchesAfterGitIgnore) files)
      filesWithPotentialDsl in
  let filesListFlatten := List.concat (List.concat filesListAllMatches) in
  let filesListUnique := uniq filesListFlatten in
  List.map (fun file =>
    let relativeToConsumer := getPathRelativeToConsumer file in
    pathNormalizeToLinux relativeToConsumer) filesListUnique.

(** *** The state an invocation changes *)

(** The index, the instance's [warnings] object, and the history of what
    was handed to the index (the index itself is opaque). *)
Record World := mkWorld {
  bitMap : BitMap;
  warnings : gmap string (list string);
  written : list IndexWrite
}.

(** *** addToBitMap *)

Definition indexWriteOf (this : AddComponents) (component : AddedComponent) : IndexWrite :=
  if trackDirFeature this
  then AddFilesToComponent (componentId component) (files component)
  else AddComponent (componentId component) (files component)
         (mainFile component) (trackDir component) AUTHORED (override this).

Definition addToBitMap (this : AddComponents) (component : AddedComponent) (w : World)
  : AddResult * World :=
  let request := indexWriteOf this component in
  let '(bitMap', componentMap) := applyWrite (bitMap w) request in
  (mkAddResult (toString (componentId component)) (cm_files componentMap),
   mkWorld bitMap' (warnings w) (written w ++ [request])).

(** *** _isGeneratedForUnsupportedFiles *)

(** [componentMap] is what [getComponentIfExist] returned, possibly
    [undefined]; its [rootDir] is read once per source path. *)
Definition _isGeneratedForUnsupportedFiles (fileRelativePath : string)
    (componentId : BitId) (componentMap : option ComponentMap) : result AddError bool :=
  if isSupportedExtension fileRelativePath then Ok false
  else
    let sourcePaths := dependenciesSourcesPaths componentId in
    match componentMap, sourcePaths with
    | None, _ :: _ => Throw TypeError
    | None, [] => Ok false
    | Some cm, _ =>
        let sourcePathsRelativeToConsumer :=
          List.map (fun sourcePath => pathJoinLinux [rootDir cm; Some sourcePath])
            sourcePaths in
        Ok (includes sourcePathsRelativeToConsumer fileRelativePath)
    end.

(** *** addOrUpdateComponentInBitMap *)

(** Where the callback of [files.map] stands when [files.map] returns: it
    has thrown, it has returned, or it waits for
    [_isGeneratedForUnsupportedFiles]. *)
Inductive FileTask :=
| Rejected (e : AddError)
| ReturnedNull
| ReturnedFile (file : ComponentMapFile)
| Awaiting (file : ComponentMapFile).

Definition isImportedOrigin (c : option ComponentMap) : bool :=
  match c with
  | Some cm => origin_eqb (origin cm) IMPORTED
  | None => false
  end.

(** [this.warnings] is a plain object: it starts as [{}], and the callback
    below is all that writes to it.  The map holds the keys of its own.
    Under the name of a property of [Object.prototype] the lookup
    [this.warnings[key]] finds what every object inherits, a function or
    [Object.prototype] itself, whatever the map holds; the callback never
    gives the object such a key of its own. *)
Definition objectPrototypeKeys : list string :=
  ["constructor"; "__defineGetter__"; "__defineSetter__"; "hasOwnProperty";
   "__lookupGetter__"; "__lookupSetter__"; "isPrototypeOf"; "propertyIsEnumerable";
   "toString"; "valueOf"; "__proto__"; "toLocaleString"].

Definition inheritedKey (key : string) : bool := includes objectPrototypeKeys key.

(** What [this.warnings[key]] evaluates to. *)
Inductive WarningSlot :=
| InheritedValue
| OwnPaths (paths : list string)
| NoValue.

Definition warningSlot (ws : gmap string (list string)) (key : string) : WarningSlot :=
  if inheritedKey key then InheritedValue
  else match ws !! key with
       | Some l => OwnPaths l
       | None => NoValue
       end.

(** [if (this.warnings[key]) this.warnings[key].push(path);
     else this.warnings[key] = [path];]
    An inherited value is truthy and has no [push]: the call of
    [undefined] throws a [TypeError]. *)
Definition pushWarning (ws : gmap string (list string)) (key path : string)
  : result AddError (gmap string (list string)) :=
  match warningSlot ws key with
  | InheritedValue => Throw TypeError
  | OwnPaths l => Ok (<[key := l ++ [path]]> ws)
  | NoValue => Ok (<[key := [path]]> ws)
  end.

(** The callback of [files.map] up to its first [await]. *)
Definition fileCallback (this : AddComponents) (bm : BitMap) (parsedBitId : BitId)
    (foundComponentFromBitMap : option ComponentMap) (file : ComponentMapFile)
    (ws : gmap string (list string)) : FileTask * gmap string (list string) :=
  let filePath := path_join getPath (relativePath file) in
  if isAutoGeneratedFile filePath then (ReturnedNull, ws)
  else
    let existingIdOfFile := getComponentIdByPath bm (relativePath file) in
    let idOfFileIsDifferent :=
      match existingIdOfFile with
      | Some existing => negb (isEqual existing parsedBitId)
      | None => false
      end in
    let existingComponentOfFile :=
      match existingIdOfFile with
      | Some existing => Some (getComponent bm existing)
      | None => None
      end in
    let isImported :=
      isImportedOrigin foundComponentFromBitMap || isImportedOrigin existingComponentOfFile in
    if isImported then
      match this_id this with
      | None => (Rejected (MissingComponentIdForImportedComponent
                             (toStringWithoutVersion parsedBitId)), ws)
      | Some userId =>
          if negb (truthy userId)
          then (Rejected (MissingComponentIdForImportedComponent
                            (toStringWithoutVersion parsedBitId)), ws)
          else
            match existingIdOfFile with
            | Some existing =>
                if idOfFileIsDifferent
                then (Rejected (IncorrectIdForImportedComponent
                                  (toStringWithoutVersion existing) userId
                                  (relativePath file)), ws)
                else (Awaiting file, ws)
            | None => (Awaiting file, ws)
            end
      end
    else
      match existingIdOfFile with
      | Some existing =>
          if idOfFileIsDifferent
          then
            match pushWarning ws (toString existing) (relativePath file) with
            | Ok ws' => (ReturnedNull, ws')
            | Throw e => (Rejected e, ws)
            end
          else (ReturnedFile file, ws)
      | None => (ReturnedFile file, ws)
      end.

(** [files.map(async file => ...)]: the callbacks run one after the other,
    each up to its first [await]. *)
Fixpoint fileCallbacks (this : AddComponents) (bm : BitMap) (parsedBitId : BitId)
    (found : option ComponentMap) (files : list ComponentMapFile)
    (ws : gmap string (list string)) : list FileTask * gmap string (list string) :=
  match files with
  | [] => ([], ws)
  | file :: rest =>
      let '(t, ws1) := fileCallback this bm parsedBitId found file ws in
      let '(ts, ws2) := fileCallbacks this bm parsedBitId found rest ws1 in
      (t :: ts, ws2)
  end.

(** The rest of the callback: what its promise settles to, and whether it
    ran [delete component.trackDir]. *)
Definition resumeFileCallback (parsedBitId : BitId) (found : option ComponentMap)
    (t : FileTask) : result AddError (option ComponentMapFile) * bool :=
  match t with
  | Rejected e => (Throw e, false)
  | ReturnedNull => (Ok None, false)
  | ReturnedFile file => (Ok (Some file), false)
  | Awaiting file =>
      match _isGeneratedForUnsupportedFiles (relativePath file) parsedBitId found with
      | Throw e => (Throw e, false)
      | Ok true => (Ok None, false)
      | Ok false => (Ok (Some file), true)
      end
  end.

Definition firstRejected (ts : list FileTask) : option AddError :=
  List.fold_right (fun t acc => match t with Rejected e => Some e | _ => acc end) None ts.

(** [await Promise.all(componentFilesP)]: a callback that threw before its
    first [await] has rejected its promise before any waiting callback
    resumes, so such a rejection comes first. *)
Definition awaitFiles (parsedBitId : BitId) (found : option ComponentMap)
    (ts : list FileTask) : result AddError (list (option ComponentMapFile)) :=
  match firstRejected ts with
  | Some e => Throw e
  | None => Promise_all (List.map (fun t => fst (resumeFileCallback parsedBitId found t)) ts)
  end.

Definition trackDirDeleted (parsedBitId : BitId) (found : option ComponentMap)
    (ts : list FileTask) : bool :=
  existsb (fun t => snd (resumeFileCallback parsedBitId found t)) ts.

(** [.filter(file => file)] *)
Definition nonNull {A} (l : list (option A)) : list A :=
  List.concat (List.map (fun o => match o with Some a => [a] | None => [] end) l).

(** The part of [addOrUpdateComponentInBitMap] that runs before it first
    gives up control: the lookups in the index and the warnings.  It leaves
    [foundComponentFromBitMap] and the callbacks of the files. *)
Definition addOrUpdate_start (this : AddComponents) (component : AddedComponent) (w : World)
  : (option ComponentMap * list FileTask) * World :=
  let foundComponentFromBitMap := getComponentIfExist (bitMap w) (componentId component) in
  let '(ts, ws) :=
    fileCallbacks this (bitMap w) (componentId component) foundComponentFromBitMap
      (files component) (warnings w) in
  ((foundComponentFromBitMap, ts), mkWorld (bitMap w) ws (written w)).

(** The part after [await Promise.all(componentFilesP)]. *)
Definition addOrUpdate_finish (this : AddComponents) (component : AddedComponent)
    (pending : option ComponentMap * list FileTask) (w : World)
  : result AddError (option AddResult) * World :=
  let '(found, ts) := pending in
  match awaitFiles (componentId component) found ts with
  | Throw e => (Throw e, w)
  | Ok settled =>
      let componentFiles := nonNull settled in
      match componentFiles with
      | [] => (Ok None, w)
      | _ :: _ =>
          let component' :=
            mkAdded (componentId component) componentFiles (mainFile component)
              (if trackDirDeleted (componentId component) found ts
               then None else trackDir component) in
          let '(r, w') := addToBitMap this component' w in
          (Ok (Some r), w')
      end
  end.

Definition addOrUpdateComponentInBitMap (this : AddComponents) (component : AddedComponent)
    (w : World) : result AddError (option AddResult) * World :=
  let '(pending, w1) := addOrUpdate_start this component w in
  addOrUpdate_finish this component pending w1.

(** *** removeExcludedFiles *)

Definition withFiles (c : AddedComponent) (fs : list ComponentMapFile) : AddedComponent :=
  mkAdded (componentId c) fs (mainFile c) (trackDir c).

(** [resolvedExcludedFiles] of [removeExcludedFiles]. *)
Definition resolvedExcludedFilesOf (this : AddComponents) (gitIgnore : list string)
    (componentsWithFiles : list AddedComponent) : list string :=
  let files :=
    List.concat (List.map (fun x => List.map relativePath (files x)) componentsWithFiles) in
  getFilesAccordingToDsl gitIgnore files (exclude this).

(** The body of the [forEach] of [removeExcludedFiles]. *)
Definition removeExcludedFrom (resolvedExcludedFiles : list string)
    (componentWithFiles : AddedComponent) : AddedComponent :=
  let mainFile :=
    match mainFile componentWithFiles with
    | Some m => if truthy m then Some (pathNormalizeToLinux m) else None
    | None => None
    end in
  let mainFileIsExcluded :=
    match mainFile with
    | Some m => includes resolvedExcludedFiles m
    | None => false
    end in
  if mainFileIsExcluded then withFiles componentWithFiles []
  else withFiles componentWithFiles
         (List.filter (fun key => negb (includes resolvedExcludedFiles (relativePath key)))
            (files componentWithFiles)).

Definition removeExcludedFiles (this : AddComponents) (gitIgnore : list string)
    (componentsWithFiles : list AddedComponent) : list AddedComponent :=
  let resolvedExcludedFiles := resolvedExcludedFilesOf this gitIgnore componentsWithFiles in
  List.map (removeExcludedFrom resolvedExcludedFiles) componentsWithFiles.

(** *** _addMainFileToFiles *)

(** [s.match(/{([^}]+)}/g)] is not null: an opening brace, at least one
    character that is not a closing brace, then a closing brace. *)
Definition closesAfterOne (s : string) : bool :=
  match s with
  | EmptyString => false
  | String c s' => negb (Ascii.eqb c "}") && str_includes "}" s'
  end.

Fixpoint matchesDslPattern (s : string) : bool :=
  match s with
  | EmptyString => false
  | String c s' => (Ascii.eqb c "{" && closesAfterOne s') || matchesDslPattern s'
  end.

(** [R.find(R.propEq('relativePath', p))(files)] *)
Definition findByRelativePath (p : string) (files : list ComponentMapFile)
  : option ComponentMapFile :=
  List.find (fun f => str_eqb (relativePath f) p) files.

(** The [forEach] of the DSL branch: it visits the files the array had
    when it started, while [mainFile] and the array change under it. *)
Fixpoint mainFileDslLoop (gitIgnore : list string) (visited : list ComponentMapFile)
    (mainFile : string) (files : list ComponentMapFile)
  : result AddError (string * list ComponentMapFile) :=
  match visited with
  | [] => Ok (mainFile, files)
  | file :: rest =>
      let generatedFile := formatWithFileInfo mainFile (relativePath file) in
      let foundFile := findByRelativePath (pathNormalizeToLinux generatedFile) files in
      let mainFile1 :=
        match foundFile with Some f => relativePath f | None => mainFile end in
      if fs_existsSync generatedFile && negb (bool_decide (is_Some foundFile))
      then
        if ignores gitIgnore generatedFile
        then Throw (ExcludedMainFile generatedFile)
        else mainFileDslLoop gitIgnore rest generatedFile
               (files ++ [mkFile (pathNormalizeToLinux generatedFile) false
                            (path_basename generatedFile)])
      else mainFileDslLoop gitIgnore rest mainFile1 files
  end.

(** The first half of [_addMainFileToFiles]: [mainFile] and the array
    [files] when the DSL branch is over. *)
Definition resolveMainFileDsl (this : AddComponents) (gitIgnore : list string)
    (files : list ComponentMapFile)
  : result AddError (option string * list ComponentMapFile) :=
  match main this with
  | Some m =>
      if truthy m && matchesDslPattern m
      then let! (m', fs') := mainFileDslLoop gitIgnore files m files in Ok (Some m', fs')
      else Ok (Some m, files)
  | None => Ok (None, files)
  end.

(** The second half, from [if (!mainFile) return undefined] on. *)
Definition checkMainFile (gitIgnore : list string) (mainFile : option string)
    (files : list ComponentMapFile)
  : result AddError (option string * list ComponentMapFile) :=
  match mainFile with
  | None => Ok (None, files)
  | Some mainFile =>
      if negb (truthy mainFile) then Ok (None, files)
      else
        let mainFileRelativeToConsumer := getPathRelativeToConsumer mainFile in
        let mainPath := toAbsolutePath mainFileRelativeToConsumer in
        if fs_existsSync mainPath then
          if ignores gitIgnore mainFileRelativeToConsumer
          then Throw (ExcludedMainFile mainFileRelativeToConsumer)
          else if isDir mainPath then Throw (MainFileIsDir mainPath)
          else
            match findByRelativePath (pathNormalizeToLinux mainFileRelativeToConsumer) files with
            | Some _ => Ok (Some mainFileRelativeToConsumer, files)
            | None =>
                Ok (Some mainFileRelativeToConsumer,
                    files ++ [mkFile (pathNormalizeToLinux mainFileRelativeToConsumer) false
                                (path_basename mainFileRelativeToConsumer)])
            end
        else Ok (Some mainFile, files)
  end.

(** Returns the resolved main file and the array [files] as the call
    leaves it. *)
Definition _addMainFileToFiles (this : AddComponents) (gitIgnore : list string)
    (files : list ComponentMapFile)
  : result AddError (option string * list ComponentMapFile) :=
  let! (mainFile, files) := resolveMainFileDsl this gitIgnore files in
  checkMainFile gitIgnore mainFile files.

(** *** _mergeTestFilesWithFiles *)

(** [lodash.unionby(a, b, 'relativePath')]: of the two arrays one after
    the other, the first file of every relative path. *)
Fixpoint uniqByRelativePath (l : list ComponentMapFile) : list ComponentMapFile :=
  match l with
  | [] => []
  | f :: l' =>
      f :: List.filter (fun g => negb (str_eqb (relativePath f) (relativePath g)))
             (uniqByRelativePath l')
  end.

Definition unionBy (a b : list ComponentMapFile) : list ComponentMapFile :=
  uniqByRelativePath (a ++ b).

Definition _mergeTestFilesWithFiles (this : AddComponents) (gitIgnore : list string)
    (files : list ComponentMapFile) : result AddError (list ComponentMapFile) :=
  let testFiles :=
    match tests this with
    | [] => []
    | _ :: _ => getFilesAccordingToDsl gitIgnore (List.map relativePath files) (tests this)
    end in
  let! resolvedTestFiles :=
    mapM (fun testFile =>
      if isDir (path_join getPath testFile) then Throw (TestIsDirectory testFile)
      else Ok (mkFile testFile true (path_basename testFile))) testFiles in
  Ok (unionBy resolvedTestFiles files).

(** *** addOneComponent *)

Definition or_opt (a b : option string) : option string :=
  if truthy_opt a then a else b.

(** [l[l.length - 2]] *)
Definition beforeLast (l : list string) : option string :=
  List.nth_error (List.rev l) 1.

(** [this._getIdAccordingToExistingComponent(idFromPath.toString())] unless
    [finalBitId] is set already. *)
Definition idFromPathUnlessSet (this : AddComponents) (bm : BitMap)
    (finalBitId : option BitId) (nameSpace name : option string) : result AddError BitId :=
  match finalBitId with
  | Some cid => Ok cid
  | None =>
      let idFromPath := getValidBitId nameSpace name in
      _getIdAccordingToExistingComponent this bm (toString idFromPath)
  end.

(** The callback of [Object.keys(componentPathsStats).map] for a directory. *)
Definition addOneDirectory (this : AddComponents) (bm : BitMap) (gitIgnore : list string)
    (numberOfPaths : nat) (finalBitId : option BitId) (componentPath : string)
  : result AddError AddedComponent :=
  let relativeComponentPath := getPathRelativeToConsumer componentPath in
  let matches := glob_nodir (path_join relativeComponentPath "**") getPath in
  let filteredMatches := gitIgnore_filter gitIgnore matches in
  match filteredMatches with
  | [] => Throw EmptyDirectory
  | _ :: _ =>
      let filteredMatchedFiles :=
        List.map (fun m => mkFile (pathNormalizeToLinux m) false (path_basename m))
          filteredMatches in
      let! filteredMatchedFiles := _mergeTestFilesWithFiles this gitIgnore filteredMatchedFiles in
      let! (resolvedMainFile, filteredMatchedFiles) :=
        _addMainFileToFiles this gitIgnore filteredMatchedFiles in
      let absoluteComponentPath := path_resolve componentPath in
      let splitPath := split_sep absoluteComponentPath in
      let lastDir := List.last (List.map Some splitPath) None in
      let nameSpaceOrDir := or_opt (namespace this) (beforeLast splitPath) in
      let! finalBitId := idFromPathUnlessSet this bm finalBitId nameSpaceOrDir lastDir in
      let trackDir :=
        if Nat.eqb numberOfPaths 1
           && Nat.eqb (List.length (exclude this)) 0
           && origin_eqb (this_origin this) AUTHORED
        then Some relativeComponentPath else None in
      Ok (mkAdded finalBitId filteredMatchedFiles resolvedMainFile trackDir)
  end.

(** The same callback for a file. *)
Definition addOneFile (this : AddComponents) (bm : BitMap) (gitIgnore : list string)
    (finalBitId : option BitId) (componentPath : string) : result AddError AddedComponent :=
  let absolutePath := path_resolve componentPath in
  let relativeFilePath := getPathRelativeToConsumer componentPath in
  let dirName :=
    if truthy (path_parse_dir absolutePath) then path_parse_dir absolutePath
    else path_dirname absolutePath in
  let nameSpaceOrLastDir :=
    or_opt (namespace this) (List.last (List.map Some (split_sep dirName)) None) in
  let! finalBitId :=
    idFromPathUnlessSet this bm finalBitId nameSpaceOrLastDir
      (Some (path_parse_name absolutePath)) in
  let files :=
    [mkFile (pathNormalizeToLinux relativeFilePath) false (path_basename relativeFilePath)] in
  let! files := _mergeTestFilesWithFiles this gitIgnore files in
  let! (resolvedMainFile, files) := _addMainFileToFiles this gitIgnore files in
  Ok (mkAdded finalBitId files resolvedMainFile None).

(** The callbacks over the paths, in the order of the keys; [finalBitId]
    is the variable they share.  (When several paths fail, the source
    reports the rejection that settles first; the embedding reports the one
    of the first path.) *)
Fixpoint addOnePaths (this : AddComponents) (bm : BitMap) (gitIgnore : list string)
    (numberOfPaths : nat) (finalBitId : option BitId) (stats : obj bool)
  : result AddError (list AddedComponent * option BitId) :=
  match stats with
  | [] => Ok ([], finalBitId)
  | (componentPath, pathIsDir) :: rest =>
      let! c :=
        if pathIsDir
        then addOneDirectory this bm gitIgnore numberOfPaths finalBitId componentPath
        else addOneFile this bm gitIgnore finalBitId componentPath in
      let! (cs, finalBitId') :=
        addOnePaths this bm gitIgnore numberOfPaths (Some (componentId c)) rest in
      Ok (c :: cs, finalBitId')
  end.

Definition or_str (a b : string) : string := if truthy a then a else b.

(** [assignwith({}, ...group, (val1, val2) => val1 || val2)] on the files
    of one relative path. *)
Definition assignFiles (first : ComponentMapFile) (others : list ComponentMapFile)
  : ComponentMapFile :=
  List.fold_left (fun acc f =>
    mkFile (or_str (relativePath acc) (relativePath f))
           (test acc || test f)
           (or_str (name acc) (name f))) others first.

Definition mergeFilesByRelativePath (files : list ComponentMapFile) : list ComponentMapFile :=
  let groupedComponents := groupby relativePath files in
  List.concat (List.map (fun kg =>
    match snd kg with
    | [] => []
    | f :: others => [assignFiles f others]
    end) groupedComponents).

Definition hasFiles (c : AddedComponent) : bool :=
  negb (Nat.eqb (List.length (files c)) 0).

(** The end of [addOneComponent], from the components of the paths. *)
Definition mergeComponents (componentId : BitId) (componentsWithFiles : list AddedComponent)
  : AddedComponent :=
  match List.filter hasFiles componentsWithFiles with
  | [] => mkAdded componentId [] None None
  | [c] => c
  | (c :: _ :: _) as cs =>
      let files := List.concat (List.map files cs) in
      mkAdded componentId (mergeFilesByRelativePath files) (mainFile c) (trackDir c)
  end.

(** [addOneComponent] reads the index and the file system and changes
    neither.  With no identity from the user and no path there is no
    [finalBitId] at the end: [add] never calls it so (see
    [resolvePaths_some_path] below), and the embedding has it throw. *)
Definition addOneComponent (this : AddComponents) (bm : BitMap) (gitIgnore : list string)
    (componentPathsStats : obj bool) : result AddError AddedComponent :=
  let! finalBitId :=
    match this_id this with
    | Some userId =>
        if truthy userId
        then let! cid := _getIdAccordingToExistingComponent this bm userId in Ok (Some cid)
        else Ok None
    | None => Ok None
    end in
  let! (componentsWithFiles, finalBitId) :=
    addOnePaths this bm gitIgnore (List.length (obj_keys componentPathsStats))
      finalBitId componentPathsStats in
  let componentsWithFiles :=
    match exclude this with
    | [] => componentsWithFiles
    | _ :: _ => removeExcludedFiles this gitIgnore componentsWithFiles
    end in
  match finalBitId with
  | Some componentId => Ok (mergeComponents componentId componentsWithFiles)
  | None => Throw TypeError
  end.

(** *** The constructor *)

Definition new_AddComponents (addProps : AddProps) : AddComponents :=
  let underConsumer (l : list string) :=
    if p_configuredConsumer addProps then List.map (path_join getPath) l else l in
  mkAddComponents
    (underConsumer (p_componentPaths addProps))
    (p_id addProps)
    (p_main addProps)
    (p_namespace addProps)
    (match p_tests addProps with
     | Some ((_ :: _) as l) => underConsumer l
     | _ => []
     end)
    (match p_exclude addProps with
     | Some ((_ :: _) as l) => underConsumer l
     | _ => []
     end)
    (p_override addProps)
    (match p_trackDirFeature addProps with Some b => b | None => false end)
    (match p_origin addProps with Some o => o | None => AUTHORED end)
    (p_configuredConsumer addProps).

(** *** getIgnoreList *)

Definition getIgnoreList (bm : BitMap) : list string :=
  let consumerPath := getPath in
  let ignoreList := retrieveIgnoreList consumerPath in
  let importedComponents := getAllImportedComponents bm in
  let distDirsOfImportedComponents :=
    List.map (fun cm => pathJoinLinux [rootDir cm; Some DEFAULT_DIST_DIRNAME; Some "**"])
      importedComponents in
  let configsToIgnore := getConfigDirsAndFilesToIgnore bm getPath in
  let configDirs :=
    List.map (fun dir => pathJoinLinux [Some dir; Some "**"]) (fst configsToIgnore) in
  ((ignoreList ++ distDirsOfImportedComponents) ++ snd configsToIgnore) ++ configDirs.

(** *** add *)

(** The first ignore list of [add]. *)
Definition initialIgnoreList (this : AddComponents) (bm : BitMap) : list string :=
  List.map (fun ignorePattern =>
    if String.prefix "**/" ignorePattern then ignorePattern
    else if configuredConsumer this then path_join "**/" ignorePattern
    else ignorePattern) (getIgnoreList bm).

(** What [add] has when it starts on the components: the patterns behind
    [this.gitIgnore] and [componentPathsStats]. *)
Definition resolvePaths (this : AddComponents) (bm : BitMap)
  : result AddError (list string * obj bool) :=
  let ignoreList := initialIgnoreList this bm in
  match getMissingTestFiles (tests this) with
  | (_ :: _) as missingFiles => Throw (PathsNotExist missingFiles)
  | [] =>
      let resolvedComponentPathsWithoutGitIgnore :=
        List.concat (List.map glob (componentPaths this)) in
      let resolvedExcludedFiles :=
        getFilesAccordingToDsl ignoreList resolvedComponentPathsWithoutGitIgnore
          (exclude this) in
      let ignoreList := ignoreList ++ resolvedExcludedFiles in
      let resolvedComponentPathsWithGitIgnore :=
        gitIgnore_filter ignoreList resolvedComponentPathsWithoutGitIgnore in
      let diff :=
        arrayDiff resolvedComponentPathsWithGitIgnore resolvedComponentPathsWithoutGitIgnore in
      let! componentPathsStats :=
        match tests this, truthy_opt (this_id this), resolvedComponentPathsWithoutGitIgnore with
        | _ :: _, true, [] =>
            let resolvedTestFiles := List.concat (List.map glob (tests this)) in
            validatePaths resolvedTestFiles
        | _, _, [] => Throw (PathsNotExist (componentPaths this))
        | _, _, _ :: _ =>
            match resolvedComponentPathsWithGitIgnore with
            | _ :: _ => validatePaths resolvedComponentPathsWithGitIgnore
            | [] => Throw (NoFiles diff)
            end
        end in
      Ok (ignoreList, componentPathsStats)
  end.

Definition isMultipleComponents (this : AddComponents) (componentPathsStats : obj bool) : bool :=
  Nat.ltb 1 (List.length (obj_keys componentPathsStats)) && negb (truthy_opt (this_id this)).

(** [componentPathsStats] of the multi-component branch once the test
    files are deleted from it. *)
Definition withoutTests (this : AddComponents) (gitIgnore : list string)
    (componentPathsStats : obj bool) : obj bool :=
  let testToRemove :=
    match tests this with
    | [] => []
    | _ :: _ => getFilesAccordingToDsl gitIgnore (obj_keys componentPathsStats) (tests this)
    end in
  List.fold_left (fun stats test => obj_delete stats (path_normalize test))
    testToRemove componentPathsStats.

(** [added] of the multi-component branch: [addOneComponent] on every path
    by itself.  (When several paths fail, the embedding reports the failure
    of the first of them.) *)
Definition addedOfPaths (this : AddComponents) (bm : BitMap) (gitIgnore : list string)
    (componentPathsStats : obj bool) : result AddError (list AddedComponent) :=
  Promise_all
    (List.map (fun kv => addOneComponent this bm gitIgnore [(fst kv, snd kv)])
       componentPathsStats).

(** The callbacks of [added.map] run one after the other up to their
    [await]: every component with files is looked up in the index, and its
    warnings recorded, before any component is written. *)
Fixpoint startAll (this : AddComponents) (added : list AddedComponent) (w : World)
  : list (AddedComponent * (option ComponentMap * list FileTask)) * World :=
  match added with
  | [] => ([], w)
  | component :: rest =>
      if hasFiles component then
        let '(pending, w1) := addOrUpdate_start this component w in
        let '(ps, w2) := startAll this rest w1 in
        ((component, pending) :: ps, w2)
      else startAll this rest w
  end.

(** Then they resume, in the order of the array; a component of which a
    file was rejected writes nothing, the others are written all the
    same. *)
Fixpoint finishAll (this : AddComponents)
    (started : list (AddedComponent * (option ComponentMap * list FileTask))) (w : World)
  : list (result AddError (option AddResult)) * World :=
  match started with
  | [] => ([], w)
  | (component, pending) :: rest =>
      let '(r, w1) := addOrUpdate_finish this component pending w in
      let '(rs, w2) := finishAll this rest w1 in
      (r :: rs, w2)
  end.

Definition addMultipleComponents (this : AddComponents) (gitIgnore : list string)
    (componentPathsStats : obj bool) (w : World) : result AddError AddActionResults * World :=
  let componentPathsStats := withoutTests this gitIgnore componentPathsStats in
  match addedOfPaths this (bitMap w) gitIgnore componentPathsStats with
  | Throw e => (Throw e, w)
  | Ok added =>
      match validateNoDuplicateIds added with
      | Throw e => (Throw e, w)
      | Ok _ =>
          let '(started, w1) := startAll this added w in
          let '(settled, w2) := finishAll this started w1 in
          match Promise_all settled with
          | Throw e => (Throw e, w2)
          | Ok results => (Ok (mkAddActionResults (nonNull results) (warnings w2)), w2)
          end
      end
  end.

Definition addSingleComponent (this : AddComponents) (gitIgnore : list string)
    (componentPathsStats : obj bool) (w : World) : result AddError AddActionResults * World :=
  match addOneComponent this (bitMap w) gitIgnore componentPathsStats with
  | Throw e => (Throw e, w)
  | Ok addedOne =>
      if hasFiles addedOne then
        match addOrUpdateComponentInBitMap this addedOne w with
        | (Throw e, w1) => (Throw e, w1)
        | (Ok addedResult, w1) =>
            (Ok (mkAddActionResults (nonNull [addedResult]) (warnings w1)), w1)
        end
      else (Ok (mkAddActionResults [] (warnings w)), w)
  end.

(** [add] on an instance whose [warnings] are still empty, over the index
    [bm].  It returns what the promise settles to, and the world it
    leaves. *)
Definition add (this : AddComponents) (bm : BitMap) : result AddError AddActionResults * World :=
  let w := mkWorld bm ∅ [] in
  match resolvePaths this bm with
  | Throw e => (Throw e, w)
  | Ok (gitIgnore, componentPathsStats) =>
      if isMultipleComponents this componentPathsStats
      then addMultipleComponents this gitIgnore componentPathsStats w
      else addSingleComponent this gitIgnore componentPathsStats w
  end.

(** ** The vocabulary of the properties *)

(** The identity and the files of a record handed to the index. *)
Definition writeId (wr : IndexWrite) : BitId :=
  match wr with
  | AddComponent cid _ _ _ _ _ => cid
  | AddFilesToComponent cid _ => cid
  end.

Definition writeFiles (wr : IndexWrite) : list ComponentMapFile :=
  match wr with
  | AddComponent _ fs _ _ _ _ => fs
  | AddFilesToComponent _ fs => fs
  end.

(** A record handed to the index by this instance: one built by
    [addToBitMap] from a component with files. *)
Definition survivor (this : AddComponents) (wr : IndexWrite) : Prop :=
  exists c : AddedComponent, files c <> [] /\ wr = indexWriteOf this c.

(** The string of the identity of a record, as [addToBitMap] returns it. *)
Definition writeKey (wr : IndexWrite) : string := toString (writeId wr).

(** Where the callback of a file stands does not depend on the warnings
    recorded so far. *)
Definition fileTask (this : AddComponents) (bm : BitMap) (parsedBitId : BitId)
    (found : option ComponentMap) (file : ComponentMapFile) : FileTask :=
  fst (fileCallback this bm parsedBitId found file ∅).


(** [isImported] of the callback, for the file at [path]. *)
Definition isImportedFile (bm : BitMap) (found : option ComponentMap) (path : string) : bool :=
  isImportedOrigin found
  || isImportedOrigin
       (match getComponentIdByPath bm path with
        | Some existing => Some (getComponent bm existing)
        | None => None
        end).

(** [idOfFileIsDifferent] of the callback. *)
Definition idOfFileIsDifferent (bm : BitMap) (pid : BitId) (path : string) : bool :=
  match getComponentIdByPath bm path with
  | Some existing => negb (isEqual existing pid)
  | None => false
  end.




(** The record [wr] was made from the component [c]: it has its identity,
    and files of [c] only, and at least one. *)
Definition handedFrom (c : AddedComponent) (wr : IndexWrite) : Prop :=
  writeId wr = componentId c
  /\ writeFiles wr <> []
  /\ forall f, In f (writeFiles wr) -> In f (files c).

(** The callbacks a started component waits for are those of its files. *)
Definition startedFrom (this : AddComponents)
    (p : AddedComponent * (option ComponentMap * list FileTask)) : Prop :=
  exists bm,
    snd (snd p) = List.map (fileTask this bm (componentId (fst p)) (fst (snd p))) (files (fst p)).



(** An entry [_addMainFileToFiles] pushes: not a test, of a path the
    ignore set does not ignore. *)
Definition pushedMainFile (gitIgnore : list string) (f : ComponentMapFile) : Prop :=
  exists g,
    f = mkFile (pathNormalizeToLinux g) false (path_basename g)
    /\ ignores gitIgnore g = false.

(** Whether the callback of a file of the component returns the file:
    at once, or after the wait when the file is not generated for an
    unsupported file. *)
Definition keepsFile (this : AddComponents) (bm : BitMap) (pid : BitId)
    (found : option ComponentMap) (f : ComponentMapFile) : bool :=
  match fileTask this bm pid found f with
  | ReturnedFile _ => true
  | Awaiting _ =>
      match _isGeneratedForUnsupportedFiles (relativePath f) pid found with
      | Ok false => true
      | _ => false
      end
  | _ => false
  end.

(** The warnings once the path [p] is recorded under the key [k], a key
    that no object inherits. *)
Definition recorded (ws : gmap string (list string)) (k p : string)
  : gmap string (list string) :=
  <[k := default [] (ws !! k) ++ [p]]> ws.

(** The identity that takes the file away from the component, if any: the
    file is not generated, it is not imported for the callback, and the
    index gives its path to an identity that is not equal to the
    component's. *)
Definition takenBy (bm : BitMap) (pid : BitId) (found : option ComponentMap)
    (f : ComponentMapFile) : option BitId :=
  if isAutoGeneratedFile (path_join getPath (relativePath f)) then None
  else if isImportedFile bm found (relativePath f) then None
  else
    match getComponentIdByPath bm (relativePath f) with
    | Some existing => if isEqual existing pid then None else Some existing
    | None => None
    end.

(** The warning the callback of a file records, if any: the key and the
    path.  The key is the string of the identity that takes the file away;
    none is recorded under a key that every object inherits. *)
Definition warningOf (bm : BitMap) (pid : BitId) (found : option ComponentMap)
    (f : ComponentMapFile) : option (string * string) :=
  match takenBy bm pid found f with
  | Some existing =>
      if inheritedKey (toString existing) then None
      else Some (toString existing, relativePath f)
  | None => None
  end.

(** Whether the callback of a file throws where it would record the
    warning: the string of the identity that takes the file away is a key
    that every object inherits. *)
Definition warningThrows (bm : BitMap) (pid : BitId) (found : option ComponentMap)
    (f : ComponentMapFile) : bool :=
  match takenBy bm pid found f with
  | Some existing => inheritedKey (toString existing)
  | None => false
  end.

(** The paths recorded under the key [k] for the files [fs], in the order
    of the files. *)
Definition pathsTakenBy (bm : BitMap) (pid : BitId) (found : option ComponentMap)
    (k : string) (fs : list ComponentMapFile) : list string :=
  List.map snd
    (List.filter (fun kp => str_eqb (fst kp) k) (nonNull (List.map (warningOf bm pid found) fs))).

(** The value of a key of the warnings once the paths [l] are pushed. *)
Definition appendPaths (o : option (list string)) (l : list string) : option (list string) :=
  match l with
  | [] => o
  | _ :: _ => Some (default [] o ++ l)
  end.

(** A file no callback has anything against: it is not generated, it is
    not imported for the callback, and no other identity owns its path. *)
Definition unclaimed (bm : BitMap) (pid : BitId) (found : option ComponentMap)
    (f : ComponentMapFile) : Prop :=
  isAutoGeneratedFile (path_join getPath (relativePath f)) = false
  /\ isImportedFile bm found (relativePath f) = false
  /\ idOfFileIsDifferent bm pid (relativePath f) = false.

(** A component of the batch started on the index [bm]: its component of
    the index and the callbacks of its files were looked up in [bm]. *)
Definition startedOn (this : AddComponents) (bm : BitMap)
    (p : AddedComponent * (option ComponentMap * list FileTask)) : Prop :=
  let found := getComponentIfExist bm (componentId (fst p)) in
  snd p = (found, List.map (fileTask this bm (componentId (fst p)) found) (files (fst p))).

(** The record [wr] is the component [c] reconciled with the index [bm]:
    it has its identity, and those of its files whose callback, run on
    [bm], returns them. *)
Definition reconciledOn (this : AddComponents) (bm : BitMap) (c : AddedComponent)
    (wr : IndexWrite) : Prop :=
  writeId wr = componentId c
  /\ writeFiles wr
     = List.filter
         (keepsFile this bm (componentId c) (getComponentIfExist bm (componentId c)))
         (files c).






(** * What the engine guarantees *)

(** ** Booleans of the source as propositions *)

Lemma str_eqb_eq (a b : string) : str_eqb a b = true <-> a = b.
Proof. apply String.eqb_eq. Qed.

Lemma str_eqb_neq (a b : string) : str_eqb a b = false <-> a <> b.
Proof. apply String.eqb_neq. Qed.


Lemma includes_In (l : list string) (x : string) : includes l x = true <-> In x l.
Proof.
  unfold includes. rewrite existsb_exists. split.
  - intros (y & Hy & Heq). apply str_eqb_eq in Heq. by subst.
  - intros Hx. exists x. split; [done | by apply str_eqb_eq].
Qed.

Lemma origin_eqb_eq (a b : ComponentOrigin) : origin_eqb a b = true <-> a = b.
Proof. destruct a, b; simpl; split; congruence. Qed.

(** ** validatePaths *)

Lemma validatePaths_from_first_missing (fileArray : list string) (acc : obj bool) :
  (exists stats, validatePaths_from fileArray acc = Ok stats
                 /\ Forall (fun p => existsSync p = true) fileArray)
  \/ (exists pre p post,
        fileArray = pre ++ p :: post
        /\ Forall (fun q => existsSync q = true) pre
        /\ existsSync p = false
        /\ validatePaths_from fileArray acc = Throw (PathsNotExist [p])).
Proof.
  revert acc. induction fileArray as [|p rest IH]; intros acc; simpl.
  - left. eexists. split; [reflexivity | constructor].
  - destruct (existsSync p) eqn:Hp; simpl.
    + destruct (IH (obj_set acc p (isDir p))) as [(stats & Hok & Hall)|(pre & q & post & -> & Hpre & Hq & Hthrow)].
      * left. exists stats. split; [done | by constructor].
      * right. exists (p :: pre), q, post. split_and!; [done | by constructor | done | done].
    + right. exists [], p, rest. split_and!; [done | constructor | done | done].
Qed.

(** C6, as the code has it: when some input path does not exist,
    [validatePaths] fails with [PathsNotExist] carrying one path only, the
    first missing one in the order of the input; the paths after it are not
    looked at. *)
Theorem validatePaths_reports_first_missing (fileArray : list string) :
  (exists p, In p fileArray /\ existsSync p = false) ->
  exists pre p post,
    fileArray = pre ++ p :: post
    /\ Forall (fun q => existsSync q = true) pre
    /\ existsSync p = false
    /\ validatePaths fileArray = Throw (PathsNotExist [p]).
Proof.
  intros (p & Hin & Hp).
  destruct (validatePaths_from_first_missing fileArray []) as [(stats & _ & Hall)|Hmiss].
  - rewrite List.Forall_forall in Hall. specialize (Hall p Hin). congruence.
  - exact Hmiss.
Qed.

(** ** _getIdAccordingToExistingComponent *)


(** ** What is handed to the index *)

Lemma writeId_indexWriteOf (this : AddComponents) (c : AddedComponent) :
  writeId (indexWriteOf this c) = componentId c.
Proof. unfold indexWriteOf. by destruct (trackDirFeature this). Qed.

Lemma writeFiles_indexWriteOf (this : AddComponents) (c : AddedComponent) :
  writeFiles (indexWriteOf this c) = files c.
Proof. unfold indexWriteOf. by destruct (trackDirFeature this). Qed.

Lemma addToBitMap_world (this : AddComponents) (c : AddedComponent) (w : World) :
  written (snd (addToBitMap this c w)) = written w ++ [indexWriteOf this c]
  /\ warnings (snd (addToBitMap this c w)) = warnings w
  /\ id (fst (addToBitMap this c w)) = toString (componentId c).
Proof.
  unfold addToBitMap. by destruct (applyWrite (bitMap w) (indexWriteOf this c)).
Qed.

Lemma addOrUpdate_start_world (this : AddComponents) (c : AddedComponent) (w : World) :
  bitMap (snd (addOrUpdate_start this c w)) = bitMap w
  /\ written (snd (addOrUpdate_start this c w)) = written w.
Proof.
  unfold addOrUpdate_start. by destruct (fileCallbacks _ _ _ _ _ _).
Qed.

(** What one call of [addOrUpdate_finish] leaves: nothing, or one record
    with the files that survived, which are not none. *)
Lemma addOrUpdate_finish_world (this : AddComponents) (c : AddedComponent)
    (pending : option ComponentMap * list FileTask) (w : World) :
  warnings (snd (addOrUpdate_finish this c pending w)) = warnings w
  /\ match fst (addOrUpdate_finish this c pending w) with
     | Ok (Some a) =>
         exists settled c',
           awaitFiles (componentId c) (fst pending) (snd pending) = Ok settled
           /\ componentId c' = componentId c
           /\ files c' = nonNull settled
           /\ files c' <> []
           /\ written (snd (addOrUpdate_finish this c pending w))
              = written w ++ [indexWriteOf this c']
           /\ id a = toString (componentId c)
     | Ok None =>
         (exists settled,
             awaitFiles (componentId c) (fst pending) (snd pending) = Ok settled
             /\ nonNull settled = [])
         /\ snd (addOrUpdate_finish this c pending w) = w
     | Throw e =>
         awaitFiles (componentId c) (fst pending) (snd pending) = Throw e
         /\ snd (addOrUpdate_finish this c pending w) = w
     end.
Proof.
  destruct pending as [found ts]. unfold addOrUpdate_finish. simpl.
  destruct (awaitFiles (componentId c) found ts) as [settled|e]; simpl; [|done].
  destruct (nonNull settled) as [|f fs] eqn:Hfs; simpl; [by eauto|].
  match goal with |- context [addToBitMap this ?c' w] =>
    pose proof (addToBitMap_world this c' w) as (Hw & Hws & Hid);
    destruct (addToBitMap this c' w) as [r w'] eqn:Hadd; simpl in *;
    split; [done|]; exists settled, c'
  end.
  rewrite Hfs. by split_and!.
Qed.

Lemma startAll_world (this : AddComponents) (added : list AddedComponent) (w : World) :
  bitMap (snd (startAll this added w)) = bitMap w
  /\ written (snd (startAll this added w)) = written w.
Proof.
  revert w. induction added as [|c rest IH]; intros w; simpl; [done|].
  destruct (hasFiles c); [|apply IH].
  pose proof (addOrUpdate_start_world this c w) as [Hb Hw].
  destruct (addOrUpdate_start this c w) as [pending w1]. simpl in *.
  specialize (IH w1). destruct (startAll this rest w1) as [ps w2]. simpl in *.
  destruct IH as [-> ->]. done.
Qed.

Lemma finishAll_world (this : AddComponents)
    (started : list (AddedComponent * (option ComponentMap * list FileTask))) (w : World) :
  warnings (snd (finishAll this started w)) = warnings w
  /\ exists new,
       written (snd (finishAll this started w)) = written w ++ new
       /\ Forall (survivor this) new
       /\ forall results,
            Promise_all (fst (finishAll this started w)) = Ok results ->
            List.map id (nonNull results) = List.map writeKey new.
Proof.
  revert w. induction started as [|[c pending] rest IH]; intros w; simpl.
  - split; [done|]. exists []. rewrite app_nil_r. split_and!; [done|constructor|].
    intros results [= <-]. done.
  - pose proof (addOrUpdate_finish_world this c pending w) as [Hws Hr].
    destruct (addOrUpdate_finish this c pending w) as [r w1]. simpl in *.
    specialize (IH w1) as (IHws & new & IHw & IHall & IHres).
    destruct (finishAll this rest w1) as [rs w2]. simpl in *.
    split; [congruence|].
    destruct r as [[a|]|e].
    + destruct Hr as (settled & c' & _ & Hid & _ & Hne & Hw1 & Ha).
      exists (indexWriteOf this c' :: new). split_and!.
      * rewrite IHw, Hw1, <- app_assoc. done.
      * constructor; [by exists c'|done].
      * intros results Hall. simpl in Hall.
        destruct (Promise_all rs) as [rs'|] eqn:Hrs; simpl in Hall; [|done].
        injection Hall as <-. unfold nonNull. simpl. fold (nonNull rs').
        rewrite (IHres rs' eq_refl). f_equal. unfold writeKey.
        by rewrite writeId_indexWriteOf, Hid, Ha.
    + destruct Hr as [_ ->]. exists new. split_and!; [done|done|].
      intros results Hall. simpl in Hall.
      destruct (Promise_all rs) as [rs'|] eqn:Hrs; simpl in Hall; [|done].
      injection Hall as <-. unfold nonNull. simpl. fold (nonNull rs').
      by apply IHres.
    + destruct Hr as [_ ->]. exists new. split_and!; [done|done|].
      intros results Hall. simpl in Hall. done.
Qed.

Lemma addMultipleComponents_written (this : AddComponents) (gitIgnore : list string)
    (stats : obj bool) (w : World) :
  exists new,
    written (snd (addMultipleComponents this gitIgnore stats w)) = written w ++ new
    /\ Forall (survivor this) new
    /\ forall res,
         fst (addMultipleComponents this gitIgnore stats w) = Ok res ->
         List.map id (addedComponents res) = List.map writeKey new.
Proof.
  unfold addMultipleComponents.
  destruct (addedOfPaths _ _ _ _) as [added|e]; simpl;
    [|exists []; rewrite app_nil_r; split_and!; [done|constructor|done]].
  destruct (validateNoDuplicateIds added) as [[]|e]; simpl;
    [|exists []; rewrite app_nil_r; split_and!; [done|constructor|done]].
  pose proof (startAll_world this added w) as [_ Hw1].
  destruct (startAll this added w) as [started w1]. simpl in Hw1.
  pose proof (finishAll_world this started w1) as (_ & new & Hw2 & Hall & Hres).
  destruct (finishAll this started w1) as [settled w2]. simpl in *.
  exists new. rewrite <- Hw1.
  destruct (Promise_all settled) as [results|e]; simpl; split_and!; try done.
  intros res [= <-]. simpl. by apply Hres.
Qed.

Lemma addSingleComponent_written (this : AddComponents) (gitIgnore : list string)
    (stats : obj bool) (w : World) :
  exists new,
    written (snd (addSingleComponent this gitIgnore stats w)) = written w ++ new
    /\ Forall (survivor this) new
    /\ forall res,
         fst (addSingleComponent this gitIgnore stats w) = Ok res ->
         List.map id (addedComponents res) = List.map writeKey new.
Proof.
  unfold addSingleComponent.
  destruct (addOneComponent _ _ _ _) as [c|e]; simpl;
    [|exists []; rewrite app_nil_r; split_and!; [done|constructor|done]].
  destruct (hasFiles c); simpl;
    [|exists []; rewrite app_nil_r; split_and!; [done|constructor|by intros res [= <-]]].
  unfold addOrUpdateComponentInBitMap.
  pose proof (addOrUpdate_start_world this c w) as [_ Hw1].
  destruct (addOrUpdate_start this c w) as [pending w1]. simpl in Hw1.
  pose proof (addOrUpdate_finish_world this c pending w1) as [_ Hr].
  destruct (addOrUpdate_finish this c pending w1) as [r w2]. simpl in *.
  rewrite <- Hw1. destruct r as [[a|]|e]; simpl.
  - destruct Hr as (settled & c' & _ & Hid & _ & Hne & Hw2 & Ha).
    exists [indexWriteOf this c']. split_and!; [done|constructor; [by exists c'|constructor]|].
    intros res [= <-]. simpl. unfold writeKey. by rewrite writeId_indexWriteOf, Hid, Ha.
  - destruct Hr as [_ ->]. exists []. rewrite app_nil_r. split_and!; [done|constructor|].
    by intros res [= <-].
  - destruct Hr as [_ ->]. exists []. rewrite app_nil_r. split_and!; [done|constructor|done].
Qed.

(** Every record [add] hands to the index was built by [addToBitMap] from
    a component with files, and a successful [add] returns one entry for
    each of them, in their order. *)
Lemma add_written (this : AddComponents) (bm : BitMap) :
  Forall (survivor this) (written (snd (add this bm)))
  /\ forall res,
       fst (add this bm) = Ok res ->
       List.map id (addedComponents res) = List.map writeKey (written (snd (add this bm))).
Proof.
  unfold add. destruct (resolvePaths this bm) as [[gitIgnore stats]|e]; simpl;
    [|split; [constructor|done]].
  destruct (isMultipleComponents this stats).
  - destruct (addMultipleComponents_written this gitIgnore stats (mkWorld bm ∅ []))
      as (new & Hw & Hall & Hres).
    simpl in Hw. rewrite Hw. split; [done|]. intros res Hok. by apply Hres.
  - destruct (addSingleComponent_written this gitIgnore stats (mkWorld bm ∅ []))
      as (new & Hw & Hall & Hres).
    simpl in Hw. rewrite Hw. split; [done|]. intros res Hok. by apply Hres.
Qed.

(** ** Components without files *)


(** ** The origin handed to the index *)

(** C10: without the track-directory feature, the record [addToBitMap]
    hands to the index carries the origin [AUTHORED], whatever the origin
    of the request; so does every record handed over by [add]. *)
Theorem index_records_are_authored (this : AddComponents) (bm : BitMap) :
  trackDirFeature this = false ->
  (forall c w,
      written (snd (addToBitMap this c w))
      = written w ++ [AddComponent (componentId c) (files c) (mainFile c) (trackDir c)
                        AUTHORED (override this)])
  /\ Forall (fun wr => exists cid fs m t,
                 wr = AddComponent cid fs m t AUTHORED (override this))
       (written (snd (add this bm))).
Proof.
  intros Hfeature. split.
  - intros c w. destruct (addToBitMap_world this c w) as (-> & _ & _).
    unfold indexWriteOf. by rewrite Hfeature.
  - destruct (add_written this bm) as [Hall _].
    eapply Forall_impl; [exact Hall|]. intros wr (c & _ & ->).
    unfold indexWriteOf. rewrite Hfeature. by eauto.
Qed.

(** ** The callbacks of the files *)

Lemma pushWarning_spec (ws : gmap string (list string)) (k p : string) :
  pushWarning ws k p = if inheritedKey k then Throw TypeError else Ok (recorded ws k p).
Proof.
  unfold pushWarning, warningSlot, recorded. destruct (inheritedKey k); [done|].
  by destruct (ws !! k).
Qed.

Lemma pushWarning_Ok (ws ws' : gmap string (list string)) (k p : string) :
  pushWarning ws k p = Ok ws' <-> inheritedKey k = false /\ ws' = recorded ws k p.
Proof.
  rewrite pushWarning_spec. destruct (inheritedKey k); split.
  - done.
  - by intros [? _].
  - by intros [= <-].
  - by intros [_ ->].
Qed.

Lemma pushWarning_Throw (ws : gmap string (list string)) (k p : string) (e : AddError) :
  pushWarning ws k p = Throw e <-> inheritedKey k = true /\ e = TypeError.
Proof.
  rewrite pushWarning_spec. destruct (inheritedKey k); split.
  - by intros [= <-].
  - by intros [_ ->].
  - done.
  - by intros [? _].
Qed.

(** Where the callback of a file stands, in terms of what takes the file
    away and of whether the warning can be recorded. *)
Lemma fileCallback_taken this bm pid found file ws existing :
  takenBy bm pid found file = Some existing ->
  fileCallback this bm pid found file ws
  = if inheritedKey (toString existing) then (Rejected TypeError, ws)
    else (ReturnedNull, recorded ws (toString existing) (relativePath file)).
Proof.
  unfold takenBy, fileCallback, isImportedFile.
  destruct (isAutoGeneratedFile _); [done|].
  destruct (getComponentIdByPath bm (relativePath file)) as [owner|]; [|by case_match].
  destruct (_ || _); [done|].
  destruct (isEqual owner pid); [done|]. intros [= ->]. simpl.
  rewrite pushWarning_spec. by destruct (inheritedKey (toString existing)).
Qed.

Lemma fileCallback_task this bm pid found file ws :
  fst (fileCallback this bm pid found file ws) = fileTask this bm pid found file.
Proof.
  unfold fileTask. destruct (takenBy bm pid found file) as [existing|] eqn:Htaken.
  - rewrite !(fileCallback_taken _ _ _ _ _ _ _ Htaken). by case_match.
  - revert Htaken. unfold takenBy, fileCallback, isImportedFile.
    repeat case_match; simpl; try done.
Qed.

Lemma fileCallbacks_tasks this bm pid found fs ws :
  fst (fileCallbacks this bm pid found fs ws) = List.map (fileTask this bm pid found) fs.
Proof.
  revert ws. induction fs as [|f fs IH]; intros ws; simpl; [done|].
  pose proof (fileCallback_task this bm pid found f ws) as Ht.
  destruct (fileCallback this bm pid found f ws) as [t ws1]. simpl in Ht.
  specialize (IH ws1). destruct (fileCallbacks this bm pid found fs ws1) as [ts ws2].
  simpl in *. by subst.
Qed.

(** The callback of a file that nothing takes away leaves the warnings
    as they were. *)
Lemma fileCallback_not_taken this bm pid found file ws :
  takenBy bm pid found file = None ->
  snd (fileCallback this bm pid found file ws) = ws.
Proof.
  unfold takenBy, fileCallback, isImportedFile.
  repeat case_match; simpl; try done.
Qed.






(** The files of the settled promises are files of the component whose
    callback returned them, at once or after the wait. *)
Lemma Promise_all_nonNull (pid : BitId) (found : option ComponentMap) (ts : list FileTask)
    (settled : list (option ComponentMapFile)) (g : ComponentMapFile) :
  Promise_all (List.map (fun t => fst (resumeFileCallback pid found t)) ts) = Ok settled ->
  In g (nonNull settled) ->
  In (ReturnedFile g) ts
  \/ (In (Awaiting g) ts
      /\ _isGeneratedForUnsupportedFiles (relativePath g) pid found = Ok false).
Proof.
  revert settled. induction ts as [|t ts IH]; intros settled Hall Hg; simpl in Hall.
  - injection Hall as <-. destruct Hg.
  - destruct (resumeFileCallback pid found t) as [[o|e] b] eqn:Ht; simpl in Hall; [|done].
    destruct (Promise_all _) as [rest|] eqn:Hrest; simpl in Hall; [|done].
    injection Hall as <-. unfold nonNull in Hg. simpl in Hg. fold (nonNull rest) in Hg.
    apply in_app_or in Hg as [Hg|Hg].
    + destruct o as [g'|]; [|destruct Hg]. destruct Hg as [->|[]].
      unfold resumeFileCallback in Ht. destruct t; try done.
      * simplify_eq. left. by left.
      * destruct (_isGeneratedForUnsupportedFiles (relativePath file) pid found)
          as [[]|] eqn:Hgen; simplify_eq.
        right. split; [by left|done].
    + destruct (IH rest eq_refl Hg) as [H1|[H1 H2]]; [left|right]; [by right|].
      split; [by right|done].
Qed.

Lemma awaitFiles_kept (this : AddComponents) (bm : BitMap) (pid : BitId)
    (found : option ComponentMap) (fs : list ComponentMapFile)
    (settled : list (option ComponentMapFile)) (g : ComponentMapFile) :
  awaitFiles pid found (List.map (fileTask this bm pid found) fs) = Ok settled ->
  In g (nonNull settled) ->
  exists f, In f fs
    /\ (fileTask this bm pid found f = ReturnedFile g
        \/ (fileTask this bm pid found f = Awaiting g
            /\ _isGeneratedForUnsupportedFiles (relativePath g) pid found = Ok false)).
Proof.
  unfold awaitFiles. destruct (firstRejected _); [done|]. intros Hall Hg.
  destruct (Promise_all_nonNull pid found _ settled g Hall Hg) as [Hin|[Hin Hgen]];
    apply List.in_map_iff in Hin as (f & Hf & Hin); exists f; split; try done.
  - by left.
  - by right.
Qed.

Lemma fileTask_Rejected_inv this bm pid found g e :
  fileTask this bm pid found g = Rejected e ->
  isAutoGeneratedFile (path_join getPath (relativePath g)) = false
  /\ ((isImportedFile bm found (relativePath g) = true
       /\ ((truthy_opt (this_id this) = false
            /\ e = MissingComponentIdForImportedComponent (toStringWithoutVersion pid))
           \/ (exists userId existing,
                  this_id this = Some userId /\ truthy userId = true
                  /\ getComponentIdByPath bm (relativePath g) = Some existing
                  /\ isEqual existing pid = false
                  /\ e = IncorrectIdForImportedComponent (toStringWithoutVersion existing)
                           userId (relativePath g))))
      \/ (warningThrows bm pid found g = true /\ e = TypeError)).
Proof.
  unfold fileTask, warningThrows.
  destruct (takenBy bm pid found g) as [owner|] eqn:Htaken.
  { rewrite (fileCallback_taken _ _ _ _ _ _ _ Htaken).
    destruct (inheritedKey (toString owner)) eqn:Hkey; simpl; [|done]. intros [= <-].
    split; [|by right]. revert Htaken. unfold takenBy. by case_match. }
  revert Htaken. unfold takenBy, fileCallback, isImportedFile.
  destruct (isAutoGeneratedFile _); [done|].
  destruct (getComponentIdByPath bm (relativePath g)) as [existing|] eqn:Hown;
    destruct (_ || _) eqn:Himp; simpl; try done;
    destruct (this_id this) as [userId|] eqn:Hid; simpl; try done.
  - intros _. destruct (truthy userId) eqn:Htruthy; simpl.
    + destruct (isEqual existing pid) eqn:Heq; simpl; [done|].
      intros [= <-]. split; [done|]. left. split; [done|]. right. by exists userId, existing.
    + intros [= <-]. split; [done|]. left. split; [done|]. by left.
  - intros _ [= <-]. split; [done|]. left. split; [done|]. by left.
  - destruct (isEqual existing pid); done.
  - destruct (isEqual existing pid); done.
  - intros _. destruct (truthy userId) eqn:Htruthy; simpl; [done|].
    intros [= <-]. split; [done|]. left. split; [done|]. by left.
  - intros _ [= <-]. split; [done|]. left. split; [done|]. by left.
Qed.

(** The callback of a file that is not generated, in each of its cases. *)
Lemma fileTask_missing_id this bm pid found g :
  isAutoGeneratedFile (path_join getPath (relativePath g)) = false ->
  isImportedFile bm found (relativePath g) = true ->
  truthy_opt (this_id this) = false ->
  fileTask this bm pid found g
  = Rejected (MissingComponentIdForImportedComponent (toStringWithoutVersion pid)).
Proof.
  unfold fileTask, fileCallback, isImportedFile. intros -> Himp Hid.
  rewrite Himp. destruct (this_id this) as [userId|]; simpl in *; [|done].
  by rewrite Hid.
Qed.

Lemma fileTask_incorrect_id this bm pid found g userId existing :
  isAutoGeneratedFile (path_join getPath (relativePath g)) = false ->
  isImportedFile bm found (relativePath g) = true ->
  this_id this = Some userId -> truthy userId = true ->
  getComponentIdByPath bm (relativePath g) = Some existing ->
  isEqual existing pid = false ->
  fileTask this bm pid found g
  = Rejected (IncorrectIdForImportedComponent (toStringWithoutVersion existing) userId
                (relativePath g)).
Proof.
  unfold fileTask, fileCallback, isImportedFile. intros -> Himp Hid Htruthy Hown Heq.
  rewrite Hown in *. rewrite Himp, Hid, Htruthy, Heq. done.
Qed.

Lemma fileTask_awaiting this bm pid found g userId :
  isAutoGeneratedFile (path_join getPath (relativePath g)) = false ->
  isImportedFile bm found (relativePath g) = true ->
  this_id this = Some userId -> truthy userId = true ->
  idOfFileIsDifferent bm pid (relativePath g) = false ->
  fileTask this bm pid found g = Awaiting g.
Proof.
  unfold fileTask, fileCallback, isImportedFile, idOfFileIsDifferent.
  intros -> Himp Hid Htruthy Hsame.
  destruct (getComponentIdByPath bm (relativePath g)) as [existing|];
    rewrite Himp, Hid, Htruthy; simpl; [|done].
  by rewrite Hsame.
Qed.



(** A callback that returns a file returns the file it was called on. *)
Lemma fileTask_returns_own_file this bm pid found f g :
  fileTask this bm pid found f = ReturnedFile g \/ fileTask this bm pid found f = Awaiting g ->
  g = f.
Proof.
  unfold fileTask, fileCallback. repeat case_match; simpl; intros [?|?]; by simplify_eq.
Qed.


Lemma firstRejected_None (ts : list FileTask) :
  firstRejected ts = None <-> forall e, ~ In (Rejected e) ts.
Proof.
  induction ts as [|t ts IH]; simpl; [split; [by intros _ e []|done]|].
  destruct t as [e'| |f|f]; simpl.
  - split; [done|]. intros Hno. destruct (Hno e'). by left.
  - rewrite IH. split; intros Hno e; [intros [?|?]; [done|by eapply Hno] | intros ?; eapply Hno; by right].
  - rewrite IH. split; intros Hno e; [intros [?|?]; [done|by eapply Hno] | intros ?; eapply Hno; by right].
  - rewrite IH. split; intros Hno e; [intros [?|?]; [done|by eapply Hno] | intros ?; eapply Hno; by right].
Qed.

Lemma firstRejected_In (ts : list FileTask) (e : AddError) :
  In (Rejected e) ts -> exists e', firstRejected ts = Some e'.
Proof.
  intros Hin. destruct (firstRejected ts) as [e'|] eqn:Hfirst; [by exists e'|].
  rewrite firstRejected_None in Hfirst. by destruct (Hfirst e).
Qed.

(** What [addOrUpdateComponentInBitMap] returns and leaves, from the
    callbacks of the files. *)
Lemma addOrUpdateComponentInBitMap_spec (this : AddComponents) (c : AddedComponent) (w : World) :
  let found := getComponentIfExist (bitMap w) (componentId c) in
  let ts := List.map (fileTask this (bitMap w) (componentId c) found) (files c) in
  let out := addOrUpdateComponentInBitMap this c w in
  warnings (snd out)
  = snd (fileCallbacks this (bitMap w) (componentId c) found (files c) (warnings w))
  /\ match fst out with
     | Ok (Some a) =>
         exists settled c',
           awaitFiles (componentId c) found ts = Ok settled
           /\ componentId c' = componentId c
           /\ files c' = nonNull settled
           /\ files c' <> []
           /\ written (snd out) = written w ++ [indexWriteOf this c']
           /\ id a = toString (componentId c)
     | Ok None =>
         (exists settled,
             awaitFiles (componentId c) found ts = Ok settled /\ nonNull settled = [])
         /\ written (snd out) = written w /\ bitMap (snd out) = bitMap w
     | Throw e =>
         awaitFiles (componentId c) found ts = Throw e
         /\ written (snd out) = written w /\ bitMap (snd out) = bitMap w
     end.
Proof.
  intros found ts out. subst out. unfold addOrUpdateComponentInBitMap, addOrUpdate_start.
  fold found.
  pose proof (fileCallbacks_tasks this (bitMap w) (componentId c) found (files c) (warnings w))
    as Hts.
  destruct (fileCallbacks this (bitMap w) (componentId c) found (files c) (warnings w))
    as [ts' ws]. simpl in Hts. subst ts'. fold ts.
  pose proof (addOrUpdate_finish_world this c (found, ts) (mkWorld (bitMap w) ws (written w)))
    as [Hws Hr].
  destruct (addOrUpdate_finish this c (found, ts) (mkWorld (bitMap w) ws (written w)))
    as [r w2]. simpl in *. split; [done|].
  destruct r as [[a|]|e]; [done| |]; destruct Hr as [Hr ->]; done.
Qed.

Lemma firstRejected_of_files this bm pid found (fs : list ComponentMapFile) (e : AddError) :
  firstRejected (List.map (fileTask this bm pid found) fs) = Some e ->
  exists pre g post,
    fs = pre ++ g :: post
    /\ fileTask this bm pid found g = Rejected e
    /\ Forall (fun h => forall e', fileTask this bm pid found h <> Rejected e') pre.
Proof.
  induction fs as [|f fs IH]; simpl; [done|].
  destruct (fileTask this bm pid found f) as [e'| |f'|f'] eqn:Hf; simpl.
  - intros [= ->]. exists [], f, fs. split_and!; [done|done|constructor].
  - intros (pre & g & post & -> & Hg & Hpre)%IH. exists (f :: pre), g, post.
    split_and!; [done|done|]. constructor; [|done]. intros e'. by rewrite Hf.
  - intros (pre & g & post & -> & Hg & Hpre)%IH. exists (f :: pre), g, post.
    split_and!; [done|done|]. constructor; [|done]. intros e'. by rewrite Hf.
  - intros (pre & g & post & -> & Hg & Hpre)%IH. exists (f :: pre), g, post.
    split_and!; [done|done|]. constructor; [|done]. intros e'. by rewrite Hf.
Qed.

(** A rejected callback rejects the whole component, with the error of the
    first rejected callback, and nothing is handed to the index. *)
Lemma rejected_file_rejects_component (this : AddComponents) (c : AddedComponent) (w : World)
    (f : ComponentMapFile) (e : AddError) :
  let found := getComponentIfExist (bitMap w) (componentId c) in
  In f (files c) ->
  fileTask this (bitMap w) (componentId c) found f = Rejected e ->
  exists pre g post e',
    files c = pre ++ g :: post
    /\ fileTask this (bitMap w) (componentId c) found g = Rejected e'
    /\ Forall (fun h => forall e'', fileTask this (bitMap w) (componentId c) found h
                                    <> Rejected e'') pre
    /\ fst (addOrUpdateComponentInBitMap this c w) = Throw e'
    /\ written (snd (addOrUpdateComponentInBitMap this c w)) = written w
    /\ bitMap (snd (addOrUpdateComponentInBitMap this c w)) = bitMap w.
Proof.
  intros found Hin Hrej.
  assert (In (Rejected e) (List.map (fileTask this (bitMap w) (componentId c) found) (files c)))
    as Hts.
  { apply List.in_map_iff. by exists f. }
  apply firstRejected_In in Hts as [e' Hfirst].
  destruct (firstRejected_of_files _ _ _ _ _ _ Hfirst) as (pre & g & post & Hfs & Hg & Hpre).
  exists pre, g, post, e'. split_and!; try done;
    destruct (addOrUpdateComponentInBitMap_spec this c w) as [_ Hout];
    fold found in Hout; unfold awaitFiles in Hout; rewrite Hfirst in Hout;
    destruct (fst (addOrUpdateComponentInBitMap this c w)) as [[a|]|e''].
  all: try (destruct Hout as (settled & c' & Habs & _); done).
  all: try (destruct Hout as [(settled & Habs & _) _]; done).
  all: destruct Hout as ([= ->] & Hw & Hb); done.
Qed.

(** Files with the same relative path share the fate of their callbacks. *)
Lemma fileTask_same_path_null this bm pid found f g :
  relativePath g = relativePath f ->
  fileTask this bm pid found f = ReturnedNull ->
  fileTask this bm pid found g = ReturnedNull.
Proof.
  unfold fileTask, fileCallback. intros ->. repeat case_match; simpl; intros; by simplify_eq.
Qed.

Lemma fileTask_same_path_awaiting this bm pid found f g :
  relativePath g = relativePath f ->
  fileTask this bm pid found f = Awaiting f ->
  fileTask this bm pid found g = Awaiting g.
Proof.
  unfold fileTask, fileCallback. intros ->. repeat case_match; simpl; intros; by simplify_eq.
Qed.

(** The record handed over by a component, if any, has no file of a path
    whose callback returned [null], and none of a path whose callback
    found the file generated for an unsupported file. *)
Lemma dropped_path_is_not_written (this : AddComponents) (c : AddedComponent) (w : World)
    (f : ComponentMapFile) :
  let found := getComponentIfExist (bitMap w) (componentId c) in
  fileTask this (bitMap w) (componentId c) found f = ReturnedNull
  \/ (fileTask this (bitMap w) (componentId c) found f = Awaiting f
      /\ _isGeneratedForUnsupportedFiles (relativePath f) (componentId c) found = Ok true) ->
  exists new,
    written (snd (addOrUpdateComponentInBitMap this c w)) = written w ++ new
    /\ Forall (fun wr => Forall (fun g => relativePath g <> relativePath f) (writeFiles wr)) new.
Proof.
  intros found Hdropped.
  destruct (addOrUpdateComponentInBitMap_spec this c w) as [_ Hout]. fold found in Hout.
  destruct (fst (addOrUpdateComponentInBitMap this c w)) as [[a|]|e].
  - destruct Hout as (settled & c' & Hsettled & _ & Hfiles & _ & Hw & _).
    exists [indexWriteOf this c']. split; [done|]. constructor; [|constructor].
    rewrite writeFiles_indexWriteOf, Hfiles. apply List.Forall_forall. intros g Hg Hpath.
    destruct (awaitFiles_kept this (bitMap w) (componentId c) found (files c) settled g
                Hsettled Hg) as (f0 & _ & Hf0).
    assert (g = f0) as <-.
    { eapply fileTask_returns_own_file. destruct Hf0 as [?|[? _]]; eauto. }
    destruct Hdropped as [Hnull|[Hwait Hgen]].
    + pose proof (fileTask_same_path_null _ _ _ _ _ _ Hpath Hnull) as Hg0.
      destruct Hf0 as [?|[? _]]; congruence.
    + pose proof (fileTask_same_path_awaiting _ _ _ _ _ _ Hpath Hwait) as Hg0.
      destruct Hf0 as [?|[_ Hgen0]]; [congruence|]. rewrite Hpath in Hgen0. congruence.
  - destruct Hout as (_ & Hw & _). exists []. rewrite app_nil_r. split; [done|constructor].
  - destruct Hout as (_ & Hw & _). exists []. rewrite app_nil_r. split; [done|constructor].
Qed.



(** ** Files that the index gives to an imported component *)

(** C1, as the code has it.  Take a file of the component that is not a
    generated file and is imported for the callback: the component being
    added is of origin [IMPORTED] in the index, or the identity that owns
    the path is.
    - Without an identity from the user, adding the component fails with
      [MissingComponentIdForImportedComponent].
    - With one, and an owner of the path that differs from the identity of
      the component, it fails with [IncorrectIdForImportedComponent], which
      names the owner, the identity of the user and the first file
      rejected so; that the file is generated for an unsupported file
      changes nothing to it.
    - In both cases nothing is handed to the index, and the error is
      another one, a [TypeError], only when the callback of a file of the
      component threw it first, where it would have recorded a warning
      under a key that every object inherits.
    - With one, and no owner that differs, a file generated for an
      unsupported file is dropped and nothing of its path is handed to the
      index. *)
Theorem imported_file_needs_the_owner_id (this : AddComponents) (c : AddedComponent)
    (w : World) (f : ComponentMapFile) :
  let found := getComponentIfExist (bitMap w) (componentId c) in
  let task := fileTask this (bitMap w) (componentId c) found in
  let out := addOrUpdateComponentInBitMap this c w in
  In f (files c) ->
  isAutoGeneratedFile (path_join getPath (relativePath f)) = false ->
  isImportedFile (bitMap w) found (relativePath f) = true ->
  (truthy_opt (this_id this) = false ->
   written (snd out) = written w
   /\ (fst out = Throw (MissingComponentIdForImportedComponent
                          (toStringWithoutVersion (componentId c)))
       \/ (fst out = Throw TypeError
           /\ exists g, In g (files c)
                        /\ warningThrows (bitMap w) (componentId c) found g = true)))
  /\ (forall userId owner,
        this_id this = Some userId -> truthy userId = true ->
        getComponentIdByPath (bitMap w) (relativePath f) = Some owner ->
        isEqual owner (componentId c) = false ->
        written (snd out) = written w
        /\ exists pre g post,
             files c = pre ++ g :: post
             /\ Forall (fun h => forall e, task h <> Rejected e) pre
             /\ ((exists owner',
                     getComponentIdByPath (bitMap w) (relativePath g) = Some owner'
                     /\ isEqual owner' (componentId c) = false
                     /\ fst out = Throw (IncorrectIdForImportedComponent
                                           (toStringWithoutVersion owner') userId
                                           (relativePath g)))
                 \/ (warningThrows (bitMap w) (componentId c) found g = true
                     /\ fst out = Throw TypeError)))
  /\ (forall userId,
        this_id this = Some userId -> truthy userId = true ->
        idOfFileIsDifferent (bitMap w) (componentId c) (relativePath f) = false ->
        _isGeneratedForUnsupportedFiles (relativePath f) (componentId c) found = Ok true ->
        fst (resumeFileCallback (componentId c) found (task f)) = Ok None
        /\ exists new,
             written (snd out) = written w ++ new
             /\ Forall (fun wr =>
                          Forall (fun g => relativePath g <> relativePath f) (writeFiles wr))
                  new).
Proof.
  intros found task out Hin Hgen Himp. subst task out. split_and!.
  - intros Hid.
    pose proof (fileTask_missing_id this (bitMap w) (componentId c) found f Hgen Himp Hid) as Hf.
    destruct (rejected_file_rejects_component this c w f _ Hin Hf)
      as (pre & g & post & e' & Hfs & Hg & _ & Hout & Hw & _).
    split; [done|]. rewrite Hout.
    apply fileTask_Rejected_inv in Hg
      as (_ & [(_ & [[_ ->]|(u & o & Hu & Ht & _)])|[Hthrows ->]]).
    + by left.
    + rewrite Hu in Hid. simpl in Hid. congruence.
    + right. split; [done|]. exists g. split; [|done]. rewrite Hfs.
      apply in_or_app. right. by left.
  - intros userId owner Hid Htruthy Hown Hdiff.
    pose proof (fileTask_incorrect_id this (bitMap w) (componentId c) found f userId owner
                  Hgen Himp Hid Htruthy Hown Hdiff) as Hf.
    destruct (rejected_file_rejects_component this c w f _ Hin Hf)
      as (pre & g & post & e' & Hfs & Hg & Hpre & Hout & Hw & _).
    split; [done|]. exists pre, g, post. split_and!; [done|done|].
    apply fileTask_Rejected_inv in Hg
      as (_ & [(_ & [[Hno _]|(u & o & Hu & _ & Ho & Hne & Heq)])|[Hthrows ->]]).
    + rewrite Hid in Hno. simpl in Hno. congruence.
    + left. subst e'. exists o. rewrite Hid in Hu. injection Hu as <-. by split_and!.
    + by right.
  - intros userId Hid Htruthy Hsame Hplaceholder.
    pose proof (fileTask_awaiting this (bitMap w) (componentId c) found f userId
                  Hgen Himp Hid Htruthy Hsame) as Hf.
    split.
    + rewrite Hf. simpl. by rewrite Hplaceholder.
    + apply dropped_path_is_not_written. right. by split.
Qed.

(** ** Files that another component of the workspace tracks *)


(** Where the string of the owner is a key that every object inherits,
    the callback throws instead of recording the warning: the component
    is rejected and nothing is handed to the index. *)
Lemma inherited_owner_key_rejects (this : AddComponents) (c : AddedComponent)
    (w : World) (f : ComponentMapFile) :
  let found := getComponentIfExist (bitMap w) (componentId c) in
  let out := addOrUpdateComponentInBitMap this c w in
  In f (files c) ->
  warningThrows (bitMap w) (componentId c) found f = true ->
  (forall ws,
      fileCallback this (bitMap w) (componentId c) found f ws = (Rejected TypeError, ws))
  /\ (exists e, fst out = Throw e)
  /\ written (snd out) = written w.
Proof.
  intros found out Hin Hthrows. subst out. unfold warningThrows in Hthrows.
  destruct (takenBy (bitMap w) (componentId c) found f) as [owner|] eqn:Htaken; [|done].
  assert (forall ws,
             fileCallback this (bitMap w) (componentId c) found f ws
             = (Rejected TypeError, ws)) as Hcb.
  { intros ws. rewrite (fileCallback_taken _ _ _ _ _ _ _ Htaken). by rewrite Hthrows. }
  split; [done|].
  destruct (rejected_file_rejects_component this c w f TypeError Hin)
    as (_ & _ & _ & e' & _ & _ & _ & Hout & Hw & _); [|by eauto].
  unfold fileTask. by rewrite Hcb.
Qed.

(** ** Objects and [groupby] *)

Lemma str_eqb_refl (a : string) : str_eqb a a = true.
Proof. by apply str_eqb_eq. Qed.

Lemma str_eqb_sym (a b : string) : str_eqb a b = str_eqb b a.
Proof. apply String.eqb_sym. Qed.

Lemma obj_get_set {V} (o : obj V) (k k' : string) (v : V) :
  obj_get (obj_set o k v) k' = if str_eqb k' k then Some v else obj_get o k'.
Proof.
  induction o as [|[k0 v0] o IH]; simpl.
  - by destruct (str_eqb k' k).
  - destruct (str_eqb k k0) eqn:Hk; simpl.
    + apply str_eqb_eq in Hk as ->. by destruct (str_eqb k' k0).
    + destruct (str_eqb k' k0) eqn:Hk'; [|done].
      apply str_eqb_eq in Hk' as ->. rewrite str_eqb_sym. by rewrite Hk.
Qed.

Lemma obj_get_None {V} (o : obj V) (k : string) :
  obj_get o k = None <-> ~ In k (obj_keys o).
Proof.
  induction o as [|[k0 v0] o IH]; simpl; [tauto|].
  destruct (str_eqb k k0) eqn:Hk.
  - apply str_eqb_eq in Hk as ->. split; [done|]. intros Hno. destruct Hno. by left.
  - apply str_eqb_neq in Hk. rewrite IH. split; [|tauto]. intros Hno [?|?]; by auto.
Qed.

Lemma obj_keys_set {V} (o : obj V) (k : string) (v : V) :
  obj_keys (obj_set o k v)
  = match obj_get o k with Some _ => obj_keys o | None => obj_keys o ++ [k] end.
Proof.
  induction o as [|[k0 v0] o IH]; simpl; [done|].
  destruct (str_eqb k k0) eqn:Hk; simpl; [done|].
  unfold obj_keys in *. rewrite IH. by destruct (obj_get o k).
Qed.

Lemma obj_set_NoDup {V} (o : obj V) (k : string) (v : V) :
  List.NoDup (obj_keys o) -> List.NoDup (obj_keys (obj_set o k v)).
Proof.
  intros Hnd. rewrite obj_keys_set. destruct (obj_get o k) eqn:Hk; [done|].
  apply obj_get_None in Hk. apply NoDup_ListNoDup. apply NoDup_app.
  split_and!; [by apply NoDup_ListNoDup| |apply NoDup_singleton].
  intros x Hx Hx'. apply list_elem_of_singleton in Hx' as ->.
  by apply list_elem_of_In in Hx.
Qed.

Lemma obj_In_get {V} (o : obj V) (k : string) (v : V) :
  List.NoDup (obj_keys o) -> (In (k, v) o <-> obj_get o k = Some v).
Proof.
  induction o as [|[k0 v0] o IH]; simpl; [by split|].
  intros Hnd. inversion Hnd as [|? ? Hk0 Hnd']; subst.
  destruct (str_eqb k k0) eqn:Hk.
  - apply str_eqb_eq in Hk as ->. split.
    + intros [[= ->]|Hin]; [done|]. destruct Hk0.
      apply List.in_map_iff. by exists (k0, v).
    + intros [= ->]. by left.
  - apply str_eqb_neq in Hk. rewrite <- (IH Hnd'). split; [|tauto].
    intros [[= ? ?]|?]; [by subst|done].
Qed.





(** ** Identities within one invocation *)








(** ** The identity of a component *)

(** Inverts a sequence of calls that returned. *)
Ltac invert_ok H :=
  repeat match type of H with
    | rbind ?r _ = Ok _ =>
        let E := fresh "Hcall" in
        destruct r as [?|?] eqn:E; simpl in H; [|discriminate H]
    | (let '(_, _) := ?p in _) = Ok _ => destruct p; simpl in H
    | (match ?p with (_, _) => _ end) = Ok _ => destruct p; simpl in H
    end.

Lemma idFromPathUnlessSet_set this bm cid box name :
  idFromPathUnlessSet this bm (Some cid) box name = Ok cid.
Proof. done. Qed.

Lemma addOneDirectory_id this bm gitIgnore n fid p c :
  addOneDirectory this bm gitIgnore n fid p = Ok c ->
  exists box name, idFromPathUnlessSet this bm fid box name = Ok (componentId c).
Proof.
  unfold addOneDirectory. destruct (gitIgnore_filter _ _); [done|]. intros Hc.
  invert_ok Hc. injection Hc as <-. simpl. by eauto.
Qed.

Lemma addOneFile_id this bm gitIgnore fid p c :
  addOneFile this bm gitIgnore fid p = Ok c ->
  exists box name, idFromPathUnlessSet this bm fid box name = Ok (componentId c).
Proof.
  unfold addOneFile. intros Hc. invert_ok Hc. injection Hc as <-. simpl. by eauto.
Qed.

(** Once [finalBitId] is set, every path gets it. *)
Lemma addOnePaths_set this bm gitIgnore n cid stats cs fid' :
  addOnePaths this bm gitIgnore n (Some cid) stats = Ok (cs, fid') ->
  Forall (fun c => componentId c = cid) cs /\ fid' = Some cid.
Proof.
  revert cid cs fid'. induction stats as [|[p d] rest IH]; intros cid cs fid'; simpl.
  - intros [= <- <-]. split; [constructor|done].
  - intros Hcs. invert_ok Hcs. injection Hcs as <- <-.
    assert (componentId a = cid) as Ha.
    { destruct d.
      - apply addOneDirectory_id in Hcall as (box & name & Hid). simpl in Hid. congruence.
      - apply addOneFile_id in Hcall as (box & name & Hid). simpl in Hid. congruence. }
    rewrite Ha in Hcall0. apply IH in Hcall0 as [Hall ->]. split; [by constructor|done].
Qed.

(** Otherwise the first path derives it, and the index is asked about the
    string of the derived identity. *)
Lemma addOnePaths_unset this bm gitIgnore n p d rest cs fid' :
  addOnePaths this bm gitIgnore n None ((p, d) :: rest) = Ok (cs, fid') ->
  exists box name cid,
    _getIdAccordingToExistingComponent this bm (toString (getValidBitId box name)) = Ok cid
    /\ Forall (fun c => componentId c = cid) cs /\ fid' = Some cid.
Proof.
  simpl. intros Hcs. invert_ok Hcs. injection Hcs as <- <-.
  assert (exists box name,
             idFromPathUnlessSet this bm None box name = Ok (componentId a))
    as (box & name & Hid).
  { destruct d; [by eapply addOneDirectory_id | by eapply addOneFile_id]. }
  apply addOnePaths_set in Hcall0 as [Hall ->].
  exists box, name, (componentId a). split_and!; [done|by constructor|done].
Qed.

Lemma removeExcludedFiles_ids this gitIgnore cid cs :
  Forall (fun c => componentId c = cid) cs ->
  Forall (fun c => componentId c = cid) (removeExcludedFiles this gitIgnore cs).
Proof.
  unfold removeExcludedFiles. intros Hall. apply List.Forall_forall.
  intros c' (c & <- & Hc)%List.in_map_iff. rewrite List.Forall_forall in Hall.
  unfold removeExcludedFrom. destruct (match _ with Some _ => _ | None => _ end); simpl;
    by apply Hall.
Qed.

Lemma mergeComponents_id cid cs :
  Forall (fun c => componentId c = cid) cs -> componentId (mergeComponents cid cs) = cid.
Proof.
  intros Hall. unfold mergeComponents.
  destruct (List.filter hasFiles cs) as [|c [|c' cs']] eqn:Hfilter; simpl; [done| |done].
  assert (In c (List.filter hasFiles cs)) as Hin by (rewrite Hfilter; by left).
  apply List.filter_In in Hin as [Hin _]. rewrite List.Forall_forall in Hall. by apply Hall.
Qed.

(** The identity [addOneComponent] gives the component: the one of the
    user reconciled with the index, or else the one derived from the first
    path, reconciled with the index. *)
Lemma addOneComponent_id this bm gitIgnore stats c :
  addOneComponent this bm gitIgnore stats = Ok c ->
  (forall userId,
      this_id this = Some userId -> truthy userId = true ->
      _getIdAccordingToExistingComponent this bm userId = Ok (componentId c))
  /\ (truthy_opt (this_id this) = false ->
      exists box name,
        _getIdAccordingToExistingComponent this bm (toString (getValidBitId box name))
        = Ok (componentId c)).
Proof.
  unfold addOneComponent. intros Hc.
  destruct (match this_id this with Some _ => _ | None => _ end) as [fid|] eqn:Hfid;
    simpl in Hc; [|done].
  destruct (addOnePaths _ _ _ _ _ _) as [[cs fid']|] eqn:Hpaths; simpl in Hc; [|done].
  destruct fid' as [cid|]; [|done]. injection Hc as <-.
  set (cs' := match exclude this with [] => cs | _ :: _ => _ end).
  assert (Forall (fun c => componentId c = cid) cs -> componentId (mergeComponents cid cs') = cid)
    as Hmerge.
  { intros Hall. apply mergeComponents_id. subst cs'. destruct (exclude this); [done|].
    by apply removeExcludedFiles_ids. }
  split.
  - intros userId Hid Htruthy. rewrite Hid, Htruthy in Hfid.
    destruct (_getIdAccordingToExistingComponent this bm userId) as [cid0|]; simpl in Hfid;
      [|done].
    injection Hfid as <-. apply addOnePaths_set in Hpaths as [Hall [= ->]].
    by rewrite Hmerge.
  - intros Hno.
    assert (fid = None) as ->.
    { destruct (this_id this) as [u|]; simpl in *; [|congruence].
      rewrite Hno in Hfid. congruence. }
    destruct stats as [|[p d] rest]; [simpl in Hpaths; congruence|].
    apply addOnePaths_unset in Hpaths as (box & name & cid0 & Hid & Hall & [= ->]).
    exists box, name. by rewrite Hmerge.
Qed.

Lemma Promise_all_In {E A} (ps : list (result E A)) (l : list A) (a : A) :
  Promise_all ps = Ok l -> In a l -> In (Ok a) ps.
Proof.
  revert l. induction ps as [|p ps IH]; intros l; simpl.
  - intros [= <-] [].
  - destruct p as [b|]; simpl; [|done].
    destruct (Promise_all ps) as [l'|]; simpl; [|done].
    intros [= <-] [->|Hin]; [by left|right; by eapply IH].
Qed.



(** ** The paths [add] works on *)

Lemma obj_set_not_nil {V} (o : obj V) (k : string) (v : V) : obj_set o k v <> [].
Proof. destruct o as [|[k0 v0] o]; simpl; [done|]. by destruct (str_eqb k k0). Qed.

Lemma validatePaths_from_not_nil (fileArray : list string) (acc stats : obj bool) :
  validatePaths_from fileArray acc = Ok stats ->
  fileArray <> [] \/ acc <> [] -> stats <> [].
Proof.
  revert acc. induction fileArray as [|p rest IH]; intros acc; simpl.
  - intros [= <-] [?|?]; done.
  - destruct (existsSync p); simpl; [|done]. intros Hok _.
    eapply IH; [exact Hok|]. right. apply obj_set_not_nil.
Qed.

(** Without an identity from the user, [add] has at least one path for
    [addOneComponent], which then derives the identity from it. *)
Lemma resolvePaths_some_path (this : AddComponents) (bm : BitMap)
    (gitIgnore : list string) (stats : obj bool) :
  resolvePaths this bm = Ok (gitIgnore, stats) ->
  truthy_opt (this_id this) = false ->
  stats <> [].
Proof.
  unfold resolvePaths. intros Hok Hid.
  destruct (getMissingTestFiles (tests this)); [|done]. rewrite Hid in Hok.
  invert_ok Hok. injection Hok as _ <-.
  destruct (List.concat (List.map glob (componentPaths this))) as [|p ps] eqn:Hglob.
  - by destruct (tests this).
  - destruct (gitIgnore_filter _ _) as [|q qs] eqn:Hfilter.
    + by destruct (tests this).
    + assert (validatePaths (q :: qs) = Ok a) as Hvalid by (by destruct (tests this)).
      eapply validatePaths_from_not_nil; [exact Hvalid|]. by left.
Qed.

(** ** The main file *)

Lemma findByRelativePath_Some p fs f :
  findByRelativePath p fs = Some f -> In f fs /\ relativePath f = p.
Proof.
  unfold findByRelativePath. intros [Hin Heq]%List.find_some. by apply str_eqb_eq in Heq.
Qed.


(** C8, as the code has it.  Take the main file as the DSL branch leaves
    it, [mainFile], not empty; [mainPath] is its absolute path.
    - When [mainPath] does not exist, [mainFile] is returned as it is, with
      no check, and is not added to the files.
    - When it exists and the ignore set ignores the main file, the call
      fails with [ExcludedMainFile]; when it is a directory, with
      [MainFileIsDir].
    - Otherwise the main file relative to the consumer is returned, and
      the files hold a file of its (normalized) path; no file is lost. *)
Theorem main_file_is_checked_when_it_exists (this : AddComponents) (gitIgnore : list string)
    (fs : list ComponentMapFile) (mainFile : string) (fs1 : list ComponentMapFile) :
  let rel := getPathRelativeToConsumer mainFile in
  let mainPath := toAbsolutePath rel in
  let out := _addMainFileToFiles this gitIgnore fs in
  resolveMainFileDsl this gitIgnore fs = Ok (Some mainFile, fs1) ->
  truthy mainFile = true ->
  (fs_existsSync mainPath = false -> out = Ok (Some mainFile, fs1))
  /\ (fs_existsSync mainPath = true -> ignores gitIgnore rel = true ->
      out = Throw (ExcludedMainFile rel))
  /\ (fs_existsSync mainPath = true -> ignores gitIgnore rel = false ->
      isDir mainPath = true ->
      out = Throw (MainFileIsDir mainPath))
  /\ (fs_existsSync mainPath = true -> ignores gitIgnore rel = false ->
      isDir mainPath = false ->
      exists fs2,
        out = Ok (Some rel, fs2)
        /\ (exists f, In f fs2 /\ relativePath f = pathNormalizeToLinux rel)
        /\ (forall f, In f fs1 -> In f fs2)).
Proof.
  intros rel mainPath out Hdsl Htruthy. subst out. unfold _addMainFileToFiles.
  rewrite Hdsl. simpl. unfold checkMainFile. rewrite Htruthy. simpl.
  fold rel. fold mainPath. split_and!.
  - by intros ->.
  - by intros -> ->.
  - by intros -> -> ->.
  - intros -> -> ->.
    destruct (findByRelativePath (pathNormalizeToLinux rel) fs1) as [f|] eqn:Hfind.
    + apply findByRelativePath_Some in Hfind as [Hin Hpath].
      exists fs1. split_and!; [done|by exists f|done].
    + eexists. split_and!; [done| |].
      * eexists. split; [apply in_or_app; right; by left|done].
      * intros f Hf. apply in_or_app. by left.
Qed.

(** ** Merging the files of several paths *)






(** ** Where the files handed to the index come from *)

Lemma addOrUpdate_start_from this c w :
  startedFrom this (c, fst (addOrUpdate_start this c w)).
Proof.
  exists (bitMap w). unfold addOrUpdate_start.
  pose proof (fileCallbacks_tasks this (bitMap w) (componentId c)
                (getComponentIfExist (bitMap w) (componentId c)) (files c) (warnings w)) as Hts.
  by destruct (fileCallbacks _ _ _ _ _ _).
Qed.

Lemma startAll_from this added w :
  Forall (fun p => In (fst p) added /\ startedFrom this p) (fst (startAll this added w)).
Proof.
  revert w. induction added as [|c rest IH]; intros w; simpl; [constructor|].
  destruct (hasFiles c).
  - pose proof (addOrUpdate_start_from this c w) as Hc.
    destruct (addOrUpdate_start this c w) as [pending w1]. specialize (IH w1).
    destruct (startAll this rest w1) as [ps w2]. simpl in *. constructor.
    + split; [by left|done].
    + eapply Forall_impl; [exact IH|]. intros p [? ?]. split; [by right|done].
  - eapply Forall_impl; [apply IH|]. intros p [? ?]. split; [by right|done].
Qed.

Lemma addOrUpdate_finish_from this c pending w :
  startedFrom this (c, pending) ->
  exists new,
    written (snd (addOrUpdate_finish this c pending w)) = written w ++ new
    /\ Forall (handedFrom c) new.
Proof.
  intros [bm Hts]. destruct pending as [found ts]. simpl in Hts.
  pose proof (addOrUpdate_finish_world this c (found, ts) w) as [_ Hr].
  destruct (fst (addOrUpdate_finish this c (found, ts) w)) as [[a|]|e].
  - destruct Hr as (settled & c' & Hsettled & Hid & Hfiles & Hne & Hw & _).
    exists [indexWriteOf this c']. split; [done|]. constructor; [|constructor].
    unfold handedFrom. rewrite writeId_indexWriteOf, writeFiles_indexWriteOf.
    split_and!; [done|done|]. intros g Hg. rewrite Hfiles in Hg. simpl in Hsettled.
    rewrite Hts in Hsettled.
    destruct (awaitFiles_kept this bm (componentId c) found (files c) settled g Hsettled Hg)
      as (f & Hf & Htask).
    assert (g = f) as ->; [|done].
    eapply fileTask_returns_own_file. destruct Htask as [?|[? _]]; eauto.
  - destruct Hr as [_ ->]. exists []. rewrite app_nil_r. split; [done|constructor].
  - destruct Hr as [_ ->]. exists []. rewrite app_nil_r. split; [done|constructor].
Qed.

Lemma finishAll_from this started w :
  Forall (startedFrom this) started ->
  exists new,
    written (snd (finishAll this started w)) = written w ++ new
    /\ Forall (fun wr => exists p, In p started /\ handedFrom (fst p) wr) new.
Proof.
  revert w. induction started as [|[c pending] rest IH]; intros w Hall; simpl.
  - exists []. rewrite app_nil_r. split; [done|constructor].
  - inversion Hall as [|? ? Hc Hrest]; subst.
    destruct (addOrUpdate_finish_from this c pending w Hc) as (new1 & Hw1 & Hnew1).
    destruct (addOrUpdate_finish this c pending w) as [r w1]. simpl in *.
    destruct (IH w1 Hrest) as (new2 & Hw2 & Hnew2).
    destruct (finishAll this rest w1) as [rs w2]. simpl in *.
    exists (new1 ++ new2). split; [by rewrite Hw2, Hw1, <- app_assoc|].
    apply Forall_app. split.
    + eapply Forall_impl; [exact Hnew1|]. intros wr Hwr. exists (c, pending).
      split; [by left|done].
    + eapply Forall_impl; [exact Hnew2|]. intros wr (p & Hp & Hwr). exists p.
      split; [by right|done].
Qed.

(** Every record [add] hands to the index was made from a component that
    [addOneComponent] returned. *)
Lemma add_provenance (this : AddComponents) (bm : BitMap) :
  Forall (fun wr =>
            exists gitIgnore stats c,
              addOneComponent this bm gitIgnore stats = Ok c /\ handedFrom c wr)
    (written (snd (add this bm))).
Proof.
  unfold add. destruct (resolvePaths this bm) as [[gitIgnore stats]|e]; simpl; [|constructor].
  destruct (isMultipleComponents this stats).
  - unfold addMultipleComponents. simpl.
    destruct (addedOfPaths _ _ _ _) as [added|e] eqn:Hadded; simpl; [|constructor].
    destruct (validateNoDuplicateIds added) as [[]|e]; simpl; [|constructor].
    pose proof (startAll_from this added (mkWorld bm ∅ [])) as Hfrom.
    pose proof (startAll_world this added (mkWorld bm ∅ [])) as [_ Hw1].
    destruct (startAll this added (mkWorld bm ∅ [])) as [started w1]. simpl in *.
    destruct (finishAll_from this started w1) as (new & Hw2 & Hnew).
    { eapply Forall_impl; [exact Hfrom|]. by intros p [_ ?]. }
    assert (written (snd (let '(settled, w2) := finishAll this started w1 in
                          match Promise_all settled with
                          | Ok results =>
                              (Ok (mkAddActionResults (nonNull results) (warnings w2)), w2)
                          | Throw e => (Throw e, w2)
                          end)) = new) as ->.
    { destruct (finishAll this started w1) as [settled w2]. simpl in Hw2.
      rewrite Hw1 in Hw2. by destruct (Promise_all settled). }
    eapply Forall_impl; [exact Hnew|]. intros wr (p & Hp & Hwr).
    rewrite List.Forall_forall in Hfrom. destruct (Hfrom p Hp) as [Hin _].
    unfold addedOfPaths in Hadded. apply (Promise_all_In _ _ _ Hadded) in Hin.
    apply List.in_map_iff in Hin as (kv & Hone & _). by eauto.
  - unfold addSingleComponent. simpl.
    destruct (addOneComponent this bm gitIgnore stats) as [c|e] eqn:Hone; simpl;
      [|constructor].
    destruct (hasFiles c); simpl; [|constructor].
    unfold addOrUpdateComponentInBitMap.
    pose proof (addOrUpdate_start_from this c (mkWorld bm ∅ [])) as Hfrom.
    pose proof (addOrUpdate_start_world this c (mkWorld bm ∅ [])) as [_ Hw1].
    destruct (addOrUpdate_start this c (mkWorld bm ∅ [])) as [pending w1]. simpl in *.
    destruct (addOrUpdate_finish_from this c pending w1 Hfrom) as (new & Hw2 & Hnew).
    destruct (addOrUpdate_finish this c pending w1) as [[r|e] w2]; simpl in *;
      rewrite Hw2, Hw1; simpl; (eapply Forall_impl; [exact Hnew|]); intros wr Hwr; by eauto.
Qed.

(** ** Excluded files *)


(** [addOneComponent] returns the components of the paths, without the
    excluded files when there are patterns to exclude, merged into one. *)
Lemma addOneComponent_inv this bm gitIgnore stats c :
  addOneComponent this bm gitIgnore stats = Ok c ->
  exists fid cs cid,
    addOnePaths this bm gitIgnore (List.length (obj_keys stats)) fid stats = Ok (cs, Some cid)
    /\ c = mergeComponents cid
             (match exclude this with
              | [] => cs
              | _ :: _ => removeExcludedFiles this gitIgnore cs
              end).
Proof.
  unfold addOneComponent. intros Hc.
  destruct (match this_id this with Some _ => _ | None => _ end) as [fid|]; simpl in Hc;
    [|done].
  destruct (addOnePaths _ _ _ _ _ _) as [[cs [cid|]]|] eqn:Hpaths; simpl in Hc; [|done|done].
  injection Hc as <-. by exists fid, cs, cid.
Qed.


(** ** One component or several *)




(** ** [getFilesAccordingToDsl] *)

Lemma uniq_In (l : list string) (x : string) : In x (uniq l) <-> In x l.
Proof.
  induction l as [|y l IH]; simpl; [done|].
  rewrite List.filter_In, IH, negb_true_iff, str_eqb_neq.
  destruct (String.eqb_spec y x) as [->|Hne]; [tauto|]. split; [intros [?|[? ?]]; tauto|].
  intros [?|?]; [done|]. right. done.
Qed.

Lemma uniq_NoDup (l : list string) : List.NoDup (uniq l).
Proof.
  induction l as [|y l IH]; simpl; constructor.
  - rewrite List.filter_In, negb_true_iff, str_eqb_neq. by intros [_ ?].
  - by apply List.NoDup_filter.
Qed.

(** X1.  A path is returned when, and only when, it is the path relative to
    the consumer, normalized, of a match of some pattern formatted for some
    file, that the ignore set does not ignore and that exists. *)
Theorem getFilesAccordingToDsl_returns_the_live_matches (gitIgnore files patterns : list string)
    (p : string) :
  In p (getFilesAccordingToDsl gitIgnore files patterns)
  <-> exists dsl file m,
        In dsl patterns /\ In file files
        /\ In m (glob (formatWithFileInfo dsl file))
        /\ ignores gitIgnore m = false
        /\ fs_existsSync m = true
        /\ p = pathNormalizeToLinux (getPathRelativeToConsumer m).
Proof.
  unfold getFilesAccordingToDsl. rewrite List.in_map_iff. split.
  - intros (m & <- & Hm). rewrite uniq_In in Hm.
    apply List.in_concat in Hm as (l & Hl & Hm).
    apply List.in_concat in Hl as (ll & Hll & Hl).
    apply List.in_map_iff in Hll as (dsl & <- & Hdsl).
    apply List.in_map_iff in Hl as (file & <- & Hfile).
    apply List.filter_In in Hm as [Hm Hexists].
    unfold gitIgnore_filter in Hm. apply List.filter_In in Hm as [Hm Hignored].
    apply negb_true_iff in Hignored. by exists dsl, file, m.
  - intros (dsl & file & m & Hdsl & Hfile & Hm & Hignored & Hexists & ->).
    exists m. split; [done|]. rewrite uniq_In.
    apply List.in_concat. eexists. split.
    + apply List.in_concat. eexists. split.
      * apply List.in_map_iff. exists dsl. split; [reflexivity|done].
      * apply List.in_map_iff. exists file. split; [reflexivity|done].
    + apply List.filter_In. split; [|done]. unfold gitIgnore_filter.
      apply List.filter_In. split; [done|]. by rewrite Hignored.
Qed.

(** ** [_mergeTestFilesWithFiles] *)







(** ** What [_addMainFileToFiles] does to the files *)

Lemma mainFileDslLoop_spec (gitIgnore : list string) (visited : list ComponentMapFile)
    (m : string) (fs : list ComponentMapFile) :
  match mainFileDslLoop gitIgnore visited m fs with
  | Ok (_, fs') => exists pushed, fs' = fs ++ pushed /\ Forall (pushedMainFile gitIgnore) pushed
  | Throw e =>
      exists g, e = ExcludedMainFile g /\ ignores gitIgnore g = true /\ fs_existsSync g = true
  end.
Proof.
  revert m fs. induction visited as [|file rest IH]; intros m fs; simpl.
  - exists []. by rewrite app_nil_r.
  - destruct (fs_existsSync (formatWithFileInfo m (relativePath file))) eqn:Hexists; simpl.
    + destruct (findByRelativePath _ fs) as [found|] eqn:Hfound; simpl; [apply IH|].
      destruct (ignores gitIgnore (formatWithFileInfo m (relativePath file))) eqn:Hignored.
      * by eexists.
      * match goal with |- context [mainFileDslLoop gitIgnore rest ?m' ?fs'] =>
          specialize (IH m' fs'); destruct (mainFileDslLoop gitIgnore rest m' fs')
            as [[m'' fs'']|e]
        end; [|done].
        destruct IH as (pushed & -> & Hpushed). eexists (_ :: pushed).
        rewrite <- app_assoc. split; [done|]. constructor; [|done]. by eexists.
    + apply IH.
Qed.

Lemma checkMainFile_spec (gitIgnore : list string) (m : option string)
    (fs : list ComponentMapFile) :
  match checkMainFile gitIgnore m fs with
  | Ok (_, fs') => exists pushed, fs' = fs ++ pushed /\ Forall (pushedMainFile gitIgnore) pushed
  | Throw e =>
      (exists g, e = ExcludedMainFile g /\ ignores gitIgnore g = true)
      \/ (exists p, e = MainFileIsDir p /\ isDir p = true /\ fs_existsSync p = true)
  end.
Proof.
  unfold checkMainFile. destruct m as [m|]; [|exists []; by rewrite app_nil_r].
  destruct (truthy m); simpl; [|exists []; by rewrite app_nil_r].
  destruct (fs_existsSync _) eqn:Hexists; [|exists []; by rewrite app_nil_r].
  destruct (ignores gitIgnore _) eqn:Hignored; [left; by eexists|].
  destruct (isDir _) eqn:Hdir; [right; by eexists|].
  destruct (findByRelativePath _ fs); [exists []; by rewrite app_nil_r|].
  eexists [_]. split; [done|]. constructor; [|constructor]. by eexists.
Qed.

(** X3.  [_addMainFileToFiles] keeps the files it is given, in their order,
    and only pushes entries after them, none a test and none of a path the
    ignore set ignores.  It fails only with [ExcludedMainFile] of a path the
    ignore set ignores, or with [MainFileIsDir] of a directory that exists.
    Without a main file it changes nothing. *)
Theorem addMainFileToFiles_only_pushes (this : AddComponents) (gitIgnore : list string)
    (fs : list ComponentMapFile) :
  match _addMainFileToFiles this gitIgnore fs with
  | Ok (m, fs') =>
      (exists pushed, fs' = fs ++ pushed /\ Forall (pushedMainFile gitIgnore) pushed)
      /\ (truthy_opt (main this) = false -> m = None /\ fs' = fs)
  | Throw e =>
      truthy_opt (main this) = true
      /\ ((exists g, e = ExcludedMainFile g /\ ignores gitIgnore g = true)
          \/ (exists p, e = MainFileIsDir p /\ isDir p = true /\ fs_existsSync p = true))
  end.
Proof.
  unfold _addMainFileToFiles.
  assert (truthy_opt (main this) = false ->
          resolveMainFileDsl this gitIgnore fs = Ok (main this, fs)
          /\ checkMainFile gitIgnore (main this) fs = Ok (None, fs)) as Hnone.
  { unfold resolveMainFileDsl, checkMainFile. destruct (main this) as [m|]; simpl; [|done].
    by intros ->. }
  assert (match resolveMainFileDsl this gitIgnore fs with
          | Ok (_, fs1) =>
              exists pushed, fs1 = fs ++ pushed /\ Forall (pushedMainFile gitIgnore) pushed
          | Throw e =>
              truthy_opt (main this) = true
              /\ exists g, e = ExcludedMainFile g /\ ignores gitIgnore g = true
          end) as Hdsl.
  { unfold resolveMainFileDsl. destruct (main this) as [m|]; [|exists []; by rewrite app_nil_r].
    destruct (truthy m) eqn:Htruthy; [|exists []; by rewrite app_nil_r].
    destruct (matchesDslPattern m); [|exists []; by rewrite app_nil_r]. cbn [andb rbind].
    pose proof (mainFileDslLoop_spec gitIgnore fs m fs) as Hloop.
    destruct (mainFileDslLoop gitIgnore fs m fs) as [[m' fs1]|e]; [done|].
    destruct Hloop as (g & -> & Hignored & _). split; [done|]. by eexists. }
  destruct (truthy_opt (main this)) eqn:Hmain.
  - clear Hnone.
    destruct (resolveMainFileDsl this gitIgnore fs) as [[m1 fs1]|e]; cbn [rbind].
    + destruct Hdsl as (pushed1 & -> & Hpushed1).
      pose proof (checkMainFile_spec gitIgnore m1 (fs ++ pushed1)) as Hcheck.
      destruct (checkMainFile gitIgnore m1 (fs ++ pushed1)) as [[m2 fs2]|e].
      * destruct Hcheck as (pushed2 & -> & Hpushed2). split; [|done].
        exists (pushed1 ++ pushed2). rewrite app_assoc. split; [done|].
        by apply Forall_app.
      * done.
    + destruct Hdsl as [_ Hdsl]. split; [done|by left].
  - destruct (Hnone eq_refl) as [-> Hcheck]. cbn [rbind]. rewrite Hcheck.
    split; [exists []; by rewrite app_nil_r|done].
Qed.

(** ** The track directory *)

Lemma addOneDirectory_trackDir this bm gitIgnore n fid p c d :
  addOneDirectory this bm gitIgnore n fid p = Ok c ->
  trackDir c = Some d ->
  n = 1 /\ exclude this = [] /\ this_origin this = AUTHORED
  /\ d = getPathRelativeToConsumer p.
Proof.
  unfold addOneDirectory. destruct (gitIgnore_filter _ _); [done|]. intros Hc.
  invert_ok Hc. injection Hc as <-. simpl.
  destruct (Nat.eqb n 1) eqn:Hn; simpl; [|done].
  destruct (Nat.eqb (List.length (exclude this)) 0) eqn:Hexclude; simpl; [|done].
  destruct (origin_eqb (this_origin this) AUTHORED) eqn:Horigin; [|done].
  intros [= <-]. apply Nat.eqb_eq in Hn. apply Nat.eqb_eq in Hexclude.
  apply origin_eqb_eq in Horigin. split_and!; try done. by destruct (exclude this).
Qed.

Lemma addOneFile_trackDir this bm gitIgnore fid p c :
  addOneFile this bm gitIgnore fid p = Ok c -> trackDir c = None.
Proof. unfold addOneFile. intros Hc. invert_ok Hc. by injection Hc as <-. Qed.

Lemma addOnePaths_trackDir this bm gitIgnore n fid stats cs fid' c d :
  addOnePaths this bm gitIgnore n fid stats = Ok (cs, fid') ->
  In c cs -> trackDir c = Some d ->
  n = 1 /\ exclude this = [] /\ this_origin this = AUTHORED
  /\ exists p, In (p, true) stats /\ d = getPathRelativeToConsumer p.
Proof.
  revert fid cs fid'. induction stats as [|[p isdir] rest IH]; intros fid cs fid'; simpl.
  - by intros [= <- _] [].
  - intros Hcs. invert_ok Hcs. injection Hcs as <- <-. intros [->|Hin] Hd.
    + destruct isdir.
      * destruct (addOneDirectory_trackDir _ _ _ _ _ _ _ _ Hcall Hd) as (? & ? & ? & ->).
        split_and!; try done. exists p. split; [by left|done].
      * apply addOneFile_trackDir in Hcall. congruence.
    + destruct (IH _ _ _ Hcall0 Hin Hd) as (? & ? & ? & q & Hq & ->).
      split_and!; try done. exists q. split; [by right|done].
Qed.

Lemma mergeComponents_trackDir (cid : BitId) (cs : list AddedComponent) (d : string) :
  trackDir (mergeComponents cid cs) = Some d -> exists c, In c cs /\ trackDir c = Some d.
Proof.
  unfold mergeComponents.
  destruct (List.filter hasFiles cs) as [|c [|c' cs']] eqn:Hfilter; simpl; [done| |];
    intros Hd; exists c; (split; [|done]);
    (assert (In c (List.filter hasFiles cs)) as Hin by (rewrite Hfilter; by left));
    by apply List.filter_In in Hin as [? _].
Qed.

(** X4.  The component [addOneComponent] returns has a track directory only
    when it was resolved from one path, a directory, with no pattern to
    exclude and the origin [AUTHORED]; the track directory is then that
    directory, relative to the consumer. *)
Theorem trackDir_is_the_only_authored_directory (this : AddComponents) (bm : BitMap)
    (gitIgnore : list string) (stats : obj bool) (c : AddedComponent) (d : string) :
  addOneComponent this bm gitIgnore stats = Ok c ->
  trackDir c = Some d ->
  exclude this = [] /\ this_origin this = AUTHORED
  /\ exists p, stats = [(p, true)] /\ d = getPathRelativeToConsumer p.
Proof.
  intros (fid & cs & cid & Hpaths & ->)%addOneComponent_inv Hd.
  apply mergeComponents_trackDir in Hd as (c & Hc & Hd).
  assert (exists c0, In c0 cs /\ trackDir c0 = Some d) as (c0 & Hc0 & Hd0).
  { destruct (exclude this); [by exists c|].
    unfold removeExcludedFiles in Hc. apply List.in_map_iff in Hc as (c0 & <- & Hc0).
    exists c0. split; [done|]. unfold removeExcludedFrom in Hd.
    by destruct (match _ with Some _ => _ | None => _ end) in Hd. }
  destruct (addOnePaths_trackDir _ _ _ _ _ _ _ _ _ _ Hpaths Hc0 Hd0)
    as (Hn & Hexclude & Horigin & p & Hp & ->).
  split_and!; [done|done|]. exists p. split; [|done].
  unfold obj_keys in Hn. rewrite List.length_map in Hn.
  destruct stats as [|kv [|kv' rest]]; simpl in Hn; try done.
  by destruct Hp as [->|[]].
Qed.

(** ** The record of a reconciled component *)

Lemma Promise_all_kept this bm pid found (fs : list ComponentMapFile)
    (settled : list (option ComponentMapFile)) :
  Promise_all (List.map (fun t => fst (resumeFileCallback pid found t))
                 (List.map (fileTask this bm pid found) fs)) = Ok settled ->
  nonNull settled = List.filter (keepsFile this bm pid found) fs.
Proof.
  revert settled. induction fs as [|f fs IH]; intros settled; simpl.
  - by intros [= <-].
  - unfold keepsFile at 1.
    pose proof (fileTask_returns_own_file this bm pid found f) as Hown.
    destruct (fileTask this bm pid found f) as [e| |g|g]; simpl.
    + done.
    + destruct (Promise_all _) as [rest|]; simpl; [|done]. intros [= <-].
      unfold nonNull. simpl. by apply IH.
    + destruct (Promise_all _) as [rest|]; simpl; [|done]. intros [= <-].
      unfold nonNull. simpl. fold (nonNull rest). rewrite (Hown g) by (by left).
      f_equal. by apply IH.
    + rewrite (Hown g) by (by right).
      destruct (_isGeneratedForUnsupportedFiles (relativePath f) pid found) as [[]|];
        simpl; [| |done].
      * destruct (Promise_all _) as [rest|]; simpl; [|done]. intros [= <-].
        unfold nonNull. simpl. by apply IH.
      * destruct (Promise_all _) as [rest|]; simpl; [|done]. intros [= <-].
        unfold nonNull. simpl. fold (nonNull rest). f_equal. by apply IH.
Qed.

Lemma awaitFiles_filter this bm pid found fs settled :
  awaitFiles pid found (List.map (fileTask this bm pid found) fs) = Ok settled ->
  nonNull settled = List.filter (keepsFile this bm pid found) fs.
Proof.
  unfold awaitFiles. destruct (firstRejected _); [done|]. apply Promise_all_kept.
Qed.

(** The component [addOrUpdateComponentInBitMap] hands to [addToBitMap]. *)
Lemma addOrUpdateComponentInBitMap_record (this : AddComponents) (c : AddedComponent)
    (w : World) (a : AddResult) :
  let found := getComponentIfExist (bitMap w) (componentId c) in
  let ts := List.map (fileTask this (bitMap w) (componentId c) found) (files c) in
  fst (addOrUpdateComponentInBitMap this c w) = Ok (Some a) ->
  written (snd (addOrUpdateComponentInBitMap this c w))
  = written w
    ++ [indexWriteOf this
          (mkAdded (componentId c)
             (List.filter (keepsFile this (bitMap w) (componentId c) found) (files c))
             (mainFile c)
             (if trackDirDeleted (componentId c) found ts then None else trackDir c))].
Proof.
  intros found ts. unfold addOrUpdateComponentInBitMap, addOrUpdate_start. fold found.
  pose proof (fileCallbacks_tasks this (bitMap w) (componentId c) found (files c) (warnings w))
    as Hts.
  destruct (fileCallbacks this (bitMap w) (componentId c) found (files c) (warnings w))
    as [ts' ws]. simpl in Hts. subst ts'. fold ts. unfold addOrUpdate_finish.
  destruct (awaitFiles (componentId c) found ts) as [settled|e] eqn:Hsettled; [|done].
  apply awaitFiles_filter in Hsettled. rewrite Hsettled.
  destruct (List.filter _ (files c)) as [|f fs] eqn:Hfilter; [done|].
  match goal with |- context [addToBitMap this ?c' ?w'] =>
    pose proof (addToBitMap_world this c' w') as (Hw & _ & _);
    destruct (addToBitMap this c' w') as [r w2]
  end.
  simpl in *. by intros _.
Qed.


Lemma fileTask_imported this bm pid found f :
  isImportedFile bm found (relativePath f) = true ->
  forall g, fileTask this bm pid found f <> ReturnedFile g.
Proof.
  unfold fileTask, fileCallback, isImportedFile. intros Himp g.
  destruct (isAutoGeneratedFile _); [done|]. rewrite Himp.
  repeat case_match; done.
Qed.

(** X6.  A component that is imported in the index is handed over without a
    track directory: every file that is kept went through the branch that
    deletes it. *)
Theorem imported_component_has_no_trackDir (this : AddComponents) (c : AddedComponent)
    (w : World) :
  isImportedOrigin (getComponentIfExist (bitMap w) (componentId c)) = true ->
  exists new,
    written (snd (addOrUpdateComponentInBitMap this c w)) = written w ++ new
    /\ Forall (fun wr =>
                 match wr with
                 | AddComponent _ _ _ trackDir _ _ => trackDir = None
                 | AddFilesToComponent _ _ => True
                 end) new.
Proof.
  intros Himported.
  set (found := getComponentIfExist (bitMap w) (componentId c)) in *.
  pose proof (addOrUpdateComponentInBitMap_record this c w) as Hrecord.
  destruct (addOrUpdateComponentInBitMap_spec this c w) as [_ Hout]. fold found in Hout.
  destruct (fst (addOrUpdateComponentInBitMap this c w)) as [[a|]|e].
  - destruct Hout as (settled & c' & Hsettled & _ & Hfiles & Hne & _).
    eexists. split; [by apply (Hrecord a)|]. constructor; [|constructor].
    unfold indexWriteOf. destruct (trackDirFeature this); [done|]. simpl.
    apply awaitFiles_filter in Hsettled. rewrite Hsettled in Hfiles.
    destruct (files c') as [|g gs] eqn:Hc'; [done|].
    assert (In g (List.filter (keepsFile this (bitMap w) (componentId c) found) (files c)))
      as Hg by (rewrite <- Hfiles; by left).
    apply List.filter_In in Hg as [Hg Hkeeps].
    fold found.
    assert (trackDirDeleted (componentId c) found
              (List.map (fileTask this (bitMap w) (componentId c) found) (files c)) = true)
      as ->; [|done].
    unfold trackDirDeleted. apply existsb_exists.
    exists (fileTask this (bitMap w) (componentId c) found g).
    split; [apply List.in_map_iff; by exists g|].
    unfold keepsFile in Hkeeps.
    pose proof (fileTask_imported this (bitMap w) (componentId c) found g) as Hnot.
    pose proof (fileTask_returns_own_file this (bitMap w) (componentId c) found g) as Hown.
    destruct (fileTask this (bitMap w) (componentId c) found g) as [e| |g'|g'];
      try done.
    + destruct (Hnot ltac:(unfold isImportedFile; by rewrite Himported) g'). done.
    + rewrite (Hown g') by (by right). simpl.
      by destruct (_isGeneratedForUnsupportedFiles (relativePath g) (componentId c) found)
        as [[]|].
  - destruct Hout as (_ & Hw & _). exists []. rewrite app_nil_r. split; [done|constructor].
  - destruct Hout as (_ & Hw & _). exists []. rewrite app_nil_r. split; [done|constructor].
Qed.

(** ** Components nothing is held against *)

Lemma fileCallback_unclaimed this bm pid found f ws :
  unclaimed bm pid found f ->
  fileCallback this bm pid found f ws = (ReturnedFile f, ws).
Proof.
  unfold unclaimed, fileCallback, isImportedFile, idOfFileIsDifferent.
  intros (-> & Himp & Hsame).
  destruct (getComponentIdByPath bm (relativePath f)) as [existing|]; rewrite Himp;
    [|done].
  by rewrite Hsame.
Qed.

Lemma fileCallbacks_unclaimed this bm pid found fs ws :
  Forall (unclaimed bm pid found) fs ->
  fileCallbacks this bm pid found fs ws = (List.map ReturnedFile fs, ws).
Proof.
  induction 1 as [|f fs Hf _ IH]; simpl; [done|].
  by rewrite (fileCallback_unclaimed _ _ _ _ _ _ Hf), IH.
Qed.

Lemma awaitFiles_all_returned (pid : BitId) (found : option ComponentMap)
    (fs : list ComponentMapFile) :
  awaitFiles pid found (List.map ReturnedFile fs) = Ok (List.map Some fs)
  /\ trackDirDeleted pid found (List.map ReturnedFile fs) = false
  /\ nonNull (List.map Some fs) = fs.
Proof.
  unfold awaitFiles, trackDirDeleted.
  induction fs as [|f fs (IHawait & IHdeleted & IHnonNull)]; simpl; [done|].
  split_and!; [|done|unfold nonNull in *; simpl; by rewrite IHnonNull].
  destruct (firstRejected (List.map ReturnedFile fs)); [done|]. by rewrite IHawait.
Qed.

(** X7.  When none of the files of a component is generated, is imported for
    the callback or belongs to another identity, the component is handed to
    the index as it is, with all its files, and no warning is recorded. *)
Theorem unclaimed_component_is_added_whole (this : AddComponents) (c : AddedComponent)
    (w : World) :
  files c <> [] ->
  Forall (unclaimed (bitMap w) (componentId c)
            (getComponentIfExist (bitMap w) (componentId c))) (files c) ->
  addOrUpdateComponentInBitMap this c w
  = (Ok (Some (fst (addToBitMap this c w))), snd (addToBitMap this c w)).
Proof.
  intros Hne Hall. unfold addOrUpdateComponentInBitMap, addOrUpdate_start.
  rewrite (fileCallbacks_unclaimed _ _ _ _ _ _ Hall). unfold addOrUpdate_finish.
  destruct (awaitFiles_all_returned (componentId c)
              (getComponentIfExist (bitMap w) (componentId c)) (files c))
    as (-> & -> & ->).
  destruct c as [cid fs m t]. destruct w as [bm ws wr]. simpl in *.
  destruct fs as [|f fs]; [done|]. unfold addToBitMap. simpl.
  by destruct (applyWrite bm _).
Qed.

(** ** Generated files *)

(** X8.  A generated file is dropped by its callback before anything is
    looked up: no warning is recorded for it, it does not reject the
    component, and nothing of its path is handed to the index. *)
Theorem generated_file_is_dropped_quietly (this : AddComponents) (c : AddedComponent)
    (w : World) (f : ComponentMapFile) :
  let found := getComponentIfExist (bitMap w) (componentId c) in
  isAutoGeneratedFile (path_join getPath (relativePath f)) = true ->
  (forall ws, fileCallback this (bitMap w) (componentId c) found f ws = (ReturnedNull, ws))
  /\ exists new,
       written (snd (addOrUpdateComponentInBitMap this c w)) = written w ++ new
       /\ Forall (fun wr =>
                    Forall (fun g => relativePath g <> relativePath f) (writeFiles wr)) new.
Proof.
  intros found Hgenerated.
  assert (forall ws, fileCallback this (bitMap w) (componentId c) found f ws
                     = (ReturnedNull, ws)) as Hcb.
  { intros ws. unfold fileCallback. by rewrite Hgenerated. }
  split; [done|]. apply dropped_path_is_not_written. left. unfold fileTask. by rewrite Hcb.
Qed.

(** ** The warnings of a component *)

Lemma fileCallback_warningOf this bm pid found f ws :
  snd (fileCallback this bm pid found f ws)
  = match warningOf bm pid found f with
    | Some (k, p) => recorded ws k p
    | None => ws
    end.
Proof.
  unfold warningOf. destruct (takenBy bm pid found f) as [existing|] eqn:Htaken.
  - rewrite (fileCallback_taken _ _ _ _ _ _ _ Htaken).
    by destruct (inheritedKey (toString existing)).
  - by apply fileCallback_not_taken.
Qed.

Lemma recorded_lookup (ws : gmap string (list string)) (k p k' : string) :
  recorded ws k p !! k'
  = if str_eqb k k' then Some (default [] (ws !! k') ++ [p]) else ws !! k'.
Proof.
  unfold recorded. destruct (String.eqb_spec k k') as [->|Hne]; unfold str_eqb.
  - rewrite String.eqb_refl. by rewrite lookup_insert_eq.
  - apply String.eqb_neq in Hne as Hneb. rewrite Hneb. by rewrite lookup_insert_ne.
Qed.

Lemma appendPaths_app (o : option (list string)) (l1 l2 : list string) :
  appendPaths (appendPaths o l1) l2 = appendPaths o (l1 ++ l2).
Proof.
  destruct l1 as [|x l1]; [done|]. destruct l2 as [|y l2]; simpl.
  - by rewrite app_nil_r.
  - by rewrite <- app_assoc.
Qed.

Lemma fileCallbacks_lookup this bm pid found fs ws k :
  snd (fileCallbacks this bm pid found fs ws) !! k
  = appendPaths (ws !! k) (pathsTakenBy bm pid found k fs).
Proof.
  revert ws. induction fs as [|f fs IH]; intros ws; simpl; [done|].
  pose proof (fileCallback_warningOf this bm pid found f ws) as Hf.
  destruct (fileCallback this bm pid found f ws) as [t ws1]. simpl in Hf.
  specialize (IH ws1). destruct (fileCallbacks this bm pid found fs ws1) as [ts ws2].
  simpl in *. rewrite IH, Hf. unfold pathsTakenBy, nonNull. simpl.
  destruct (warningOf bm pid found f) as [[k0 p0]|]; simpl; [|done].
  rewrite recorded_lookup. destruct (str_eqb k0 k); simpl; [|done].
  change (Some (default [] (ws !! k) ++ [p0])) with (appendPaths (ws !! k) [p0]).
  by rewrite appendPaths_app.
Qed.

Lemma pathsTakenBy_inherited bm pid found k fs :
  inheritedKey k = true -> pathsTakenBy bm pid found k fs = [].
Proof.
  intros Hk. unfold pathsTakenBy. induction fs as [|f fs IH]; [done|].
  unfold nonNull in *. simpl. rewrite List.filter_app, List.map_app, IH, app_nil_r.
  unfold warningOf. destruct (takenBy bm pid found f) as [existing|]; [|done].
  destruct (inheritedKey (toString existing)) eqn:Hexisting; [done|]. simpl.
  destruct (str_eqb (toString existing) k) eqn:Heq; [|done].
  apply str_eqb_eq in Heq. congruence.
Qed.

(** X9.  The warnings a component leaves: under every key, the paths of its
    files that are not generated, not imported for the callback, and owned
    by the identity of that key, another than the component's, pushed in the
    order of the files after what the key had; the other keys are as they
    were.  Nothing is pushed under a key that every object inherits: the
    callback throws there, and such a key is as it was.  This holds whether
    the component is added or rejected. *)
Theorem warnings_list_the_files_taken_away (this : AddComponents) (c : AddedComponent)
    (w : World) (k : string) :
  let found := getComponentIfExist (bitMap w) (componentId c) in
  let out := addOrUpdateComponentInBitMap this c w in
  warnings (snd out) !! k
  = appendPaths (warnings w !! k)
      (List.map relativePath
         (List.filter
            (fun f =>
               match takenBy (bitMap w) (componentId c) found f with
               | Some owner => str_eqb (toString owner) k && negb (inheritedKey k)
               | None => false
               end)
            (files c)))
  /\ (inheritedKey k = true -> warnings (snd out) !! k = warnings w !! k).
Proof.
  intros found out. subst out.
  destruct (addOrUpdateComponentInBitMap_spec this c w) as [-> _]. fold found.
  rewrite fileCallbacks_lookup.
  assert (pathsTakenBy (bitMap w) (componentId c) found k (files c)
          = List.map relativePath
              (List.filter
                 (fun f =>
                    match takenBy (bitMap w) (componentId c) found f with
                    | Some owner => str_eqb (toString owner) k && negb (inheritedKey k)
                    | None => false
                    end)
                 (files c))) as Hpaths.
  { unfold pathsTakenBy. induction (files c) as [|f fs IH]; [done|].
    unfold nonNull in *. simpl. rewrite List.filter_app, List.map_app, IH.
    unfold warningOf. destruct (takenBy (bitMap w) (componentId c) found f) as [owner|];
      [|done].
    destruct (str_eqb (toString owner) k) eqn:Heq; simpl.
    - apply str_eqb_eq in Heq. rewrite Heq.
      destruct (inheritedKey k); simpl; [done|]. by rewrite str_eqb_refl.
    - destruct (inheritedKey (toString owner)); simpl; [done|]. by rewrite Heq. }
  split; [by rewrite Hpaths|].
  intros Hk. by rewrite (pathsTakenBy_inherited _ _ _ _ _ Hk).
Qed.

(** ** A failure of [add] *)



(** ** The identities [add] writes *)

Lemma getIdAccordingToExistingComponent_inv this bm s cid :
  _getIdAccordingToExistingComponent this bm s = Ok cid ->
  match getExistingBitId bm s with
  | Some existing => cid = existing /\ origin (getComponent bm existing) <> NESTED
  | None => cid = parse s /\ str_includes VERSION_DELIMITER s = false
  end.
Proof.
  unfold _getIdAccordingToExistingComponent.
  destruct (getExistingBitId bm s) as [existing|].
  - destruct (origin_eqb _ NESTED) eqn:Horigin; [done|].
    assert (origin (getComponent bm existing) <> NESTED) as Hnot.
    { intros Heq. apply origin_eqb_eq in Heq. congruence. }
    destruct (str_includes VERSION_DELIMITER s); [destruct (_ || _); [done|]|];
      intros [= <-]; done.
  - destruct (str_includes VERSION_DELIMITER s); [done|]. by intros [= <-].
Qed.

(** X11.  Every record [add] hands to the index is under an identity
    reconciled with the index, from the identity of the user when there is
    one and else from one derived from a path: the identity the index has
    for it, which is not that of a nested dependency, or else a new identity
    parsed from a string without a version. *)
Theorem written_identities_are_reconciled (this : AddComponents) (bm : BitMap) :
  Forall (fun wr =>
            exists s,
              match this_id this with
              | Some userId =>
                  if truthy userId then s = userId
                  else exists box name, s = toString (getValidBitId box name)
              | None => exists box name, s = toString (getValidBitId box name)
              end
              /\ match getExistingBitId bm s with
                 | Some existing =>
                     writeId wr = existing /\ origin (getComponent bm existing) <> NESTED
                 | None =>
                     writeId wr = parse s /\ str_includes VERSION_DELIMITER s = false
                 end)
    (written (snd (add this bm))).
Proof.
  eapply Forall_impl; [apply add_provenance|].
  intros wr (gitIgnore & stats & c & Hone & Hid & _). simpl in Hid. rewrite Hid.
  apply addOneComponent_id in Hone as [Huser Hderived].
  destruct (this_id this) as [userId|] eqn:Hthis; [destruct (truthy userId) eqn:Htruthy|].
  - exists userId. split; [done|].
    apply (getIdAccordingToExistingComponent_inv this). by apply Huser.
  - destruct (Hderived Htruthy) as (box & name & Hget). eexists. split; [by eauto|].
    by apply (getIdAccordingToExistingComponent_inv this).
  - destruct (Hderived eq_refl) as (box & name & Hget). eexists. split; [by eauto|].
    by apply (getIdAccordingToExistingComponent_inv this).
Qed.

(** ** The stats of the paths *)

Lemma validatePaths_from_spec (fileArray : list string) (acc : obj bool) :
  match validatePaths_from fileArray acc with
  | Ok stats =>
      Forall (fun p => existsSync p = true) fileArray
      /\ (List.NoDup (obj_keys acc) -> List.NoDup (obj_keys stats))
      /\ forall p, obj_get stats p
                   = if includes fileArray p then Some (isDir p) else obj_get acc p
  | Throw _ => Exists (fun p => existsSync p = false) fileArray
  end.
Proof.
  revert acc. induction fileArray as [|q rest IH]; intros acc; simpl.
  - split_and!; [constructor|done|done].
  - destruct (existsSync q) eqn:Hq; simpl; [|by constructor].
    specialize (IH (obj_set acc q (isDir q))).
    destruct (validatePaths_from rest _) as [stats|e].
    + destruct IH as (Hall & Hnd & Hget). split_and!.
      * by constructor.
      * intros Hacc. apply Hnd. by apply obj_set_NoDup.
      * intros p. rewrite Hget, obj_get_set.
        destruct (str_eqb p q) eqn:Hpq; simpl; [|done].
        apply str_eqb_eq in Hpq as ->. by destruct (includes rest q).
    + by constructor 2.
Qed.

(** X12.  [validatePaths] returns exactly when every path exists.  The stats
    it returns then have one key for every distinct path, and under it
    whether the path is a directory; when it throws, some path does not
    exist. *)
Theorem validatePaths_collects_the_stats (fileArray : list string) :
  match validatePaths fileArray with
  | Ok stats =>
      Forall (fun p => existsSync p = true) fileArray
      /\ List.NoDup (obj_keys stats)
      /\ (forall p, In p (obj_keys stats) <-> In p fileArray)
      /\ (forall p d, In (p, d) stats -> d = isDir p)
  | Throw _ => Exists (fun p => existsSync p = false) fileArray
  end.
Proof.
  unfold validatePaths. pose proof (validatePaths_from_spec fileArray []) as Hspec.
  destruct (validatePaths_from fileArray []) as [stats|e]; [|done].
  destruct Hspec as (Hall & Hnd & Hget). specialize (Hnd (List.NoDup_nil _)).
  split_and!; [done|done| |].
  - intros p. rewrite <- (includes_In fileArray). specialize (Hget p).
    destruct (includes fileArray p).
    + split; [done|]. intros _.
      destruct (List.in_dec String.string_dec p (obj_keys stats)) as [?|Hno]; [done|].
      apply obj_get_None in Hno. congruence.
    + split; [|done]. intros Hin. simpl in Hget. apply obj_get_None in Hget. done.
  - intros p d Hin. apply (obj_In_get _ _ _ Hnd) in Hin. rewrite Hget in Hin.
    destruct (includes fileArray p); [congruence|done].
Qed.

(** ** The files of several paths, merged *)





(** ** The paths of the tests in the batch *)

Lemma fold_obj_delete {V} (l : list string) (o : obj V) :
  List.fold_left (fun stats t => obj_delete stats t) l o
  = List.filter (fun kv => negb (includes l (fst kv))) o.
Proof.
  revert o. induction l as [|t l IH]; intros o; simpl.
  - induction o as [|kv o IHo]; simpl; [done|]. by rewrite <- IHo.
  - rewrite IH. unfold obj_delete. clear IH.
    induction o as [|kv o IHo]; simpl; [done|].
    rewrite (str_eqb_sym (fst kv) t).
    destruct (str_eqb t (fst kv)); simpl; [done|].
    destruct (includes l (fst kv)); simpl; [done|]. by rewrite IHo.
Qed.

(** X14.  In the batch, a path that the test patterns resolve to for the
    paths is no component of its own: the stats lose the keys that are the
    normalized path of a resolved test, and keep the others in their order. *)
Theorem tests_are_no_components_of_their_own (this : AddComponents)
    (gitIgnore : list string) (stats : obj bool) :
  withoutTests this gitIgnore stats
  = List.filter
      (fun kv =>
         negb (includes
                 (List.map path_normalize
                    (getFilesAccordingToDsl gitIgnore (obj_keys stats) (tests this)))
                 (fst kv)))
      stats.
Proof.
  unfold withoutTests.
  assert (match tests this with
          | [] => []
          | _ :: _ => getFilesAccordingToDsl gitIgnore (obj_keys stats) (tests this)
          end = getFilesAccordingToDsl gitIgnore (obj_keys stats) (tests this)) as ->.
  { by destruct (tests this). }
  generalize (getFilesAccordingToDsl gitIgnore (obj_keys stats) (tests this)) as l.
  intros l. rewrite <- fold_obj_delete. revert stats.
  induction l as [|t l IH]; intros stats; simpl; [done|]. apply IH.
Qed.

(** ** Paths that are all ignored *)

Lemma gitIgnore_filter_all_ignored (patterns paths : list string) :
  Forall (fun p => ignores patterns p = true) paths -> gitIgnore_filter patterns paths = [].
Proof.
  unfold gitIgnore_filter. induction 1 as [|p paths Hp _ IH]; simpl; [done|].
  by rewrite Hp.
Qed.

(** X15.  When the paths resolve to something and the ignore set, with the
    excluded files added to it, ignores all of it, [add] fails with
    [NoFiles], which carries what was filtered out, and the index is as it
    was. *)
Theorem ignored_paths_fail_with_NoFiles (this : AddComponents) (bm : BitMap) :
  let ignoreList := initialIgnoreList this bm in
  let resolved := List.concat (List.map glob (componentPaths this)) in
  let excluded := getFilesAccordingToDsl ignoreList resolved (exclude this) in
  getMissingTestFiles (tests this) = [] ->
  resolved <> [] ->
  Forall (fun p => ignores (ignoreList ++ excluded) p = true) resolved ->
  add this bm = (Throw (NoFiles (arrayDiff [] resolved)), mkWorld bm ∅ []).
Proof.
  intros ignoreList resolved excluded Htests Hresolved Hignored.
  unfold add, resolvePaths. rewrite Htests.
  fold ignoreList. fold resolved. fold excluded.
  rewrite (gitIgnore_filter_all_ignored _ _ Hignored).
  destruct resolved as [|p ps]; [done|].
  by destruct (tests this), (truthy_opt (this_id this)).
Qed.

(** ** An empty directory among the paths *)

Lemma addOneDirectory_empty this bm gitIgnore n fid p :
  gitIgnore_filter gitIgnore (glob_nodir (path_join (getPathRelativeToConsumer p) "**") getPath)
  = [] ->
  addOneDirectory this bm gitIgnore n fid p = Throw EmptyDirectory.
Proof. unfold addOneDirectory. by intros ->. Qed.

Lemma addOnePaths_empty_directory this bm gitIgnore n fid stats p :
  In (p, true) stats ->
  gitIgnore_filter gitIgnore (glob_nodir (path_join (getPathRelativeToConsumer p) "**") getPath)
  = [] ->
  exists e, addOnePaths this bm gitIgnore n fid stats = Throw e.
Proof.
  intros Hin Hempty. revert fid. induction stats as [|[q d] rest IH]; intros fid;
    [destruct Hin|].
  cbn [addOnePaths]. destruct Hin as [[= -> ->]|Hin].
  - rewrite addOneDirectory_empty by done. by eexists.
  - destruct (if d then _ else _) as [c|e]; simpl; [|by eexists].
    destruct (IH Hin (Some (componentId c))) as [e ->]. by eexists.
Qed.

(** X16.  A directory among the paths in which the ignore set leaves no file
    fails the component, whatever the other paths are: no component is
    returned for the rest.  When it is the only path and the user gave no
    identity, the failure is [EmptyDirectory]. *)
Theorem empty_directory_fails_the_component (this : AddComponents) (bm : BitMap)
    (gitIgnore : list string) (stats : obj bool) (p : string) :
  In (p, true) stats ->
  gitIgnore_filter gitIgnore (glob_nodir (path_join (getPathRelativeToConsumer p) "**") getPath)
  = [] ->
  (exists e, addOneComponent this bm gitIgnore stats = Throw e)
  /\ (stats = [(p, true)] -> truthy_opt (this_id this) = false ->
      addOneComponent this bm gitIgnore stats = Throw EmptyDirectory).
Proof.
  intros Hin Hempty. split.
  - unfold addOneComponent.
    destruct (match this_id this with Some _ => _ | None => _ end) as [fid|e]; simpl;
      [|by eexists].
    destruct (addOnePaths_empty_directory this bm gitIgnore
                (List.length (obj_keys stats)) fid stats p Hin Hempty) as [e ->].
    by eexists.
  - intros -> Hid. unfold addOneComponent.
    assert (match this_id this with
            | Some userId =>
                if truthy userId
                then let! cid := _getIdAccordingToExistingComponent this bm userId in
                     Ok (Some cid)
                else Ok None
            | None => Ok None
            end = Ok None) as ->.
    { destruct (this_id this) as [userId|]; [|done]. simpl in Hid. by rewrite Hid. }
    cbn [rbind addOnePaths]. by rewrite addOneDirectory_empty.
Qed.

(** ** The index the batch is reconciled with *)

Lemma startAll_on this added w :
  Forall (fun p => In (fst p) added /\ startedOn this (bitMap w) p)
    (fst (startAll this added w)).
Proof.
  revert w. induction added as [|c rest IH]; intros w; cbn [startAll]; [constructor|].
  destruct (hasFiles c).
  - pose proof (addOrUpdate_start_world this c w) as [Hbm _].
    assert (startedOn this (bitMap w) (c, fst (addOrUpdate_start this c w))) as Hc.
    { unfold startedOn, addOrUpdate_start. simpl.
      pose proof (fileCallbacks_tasks this (bitMap w) (componentId c)
                    (getComponentIfExist (bitMap w) (componentId c)) (files c) (warnings w))
        as Hts.
      destruct (fileCallbacks _ _ _ _ _ _) as [ts ws]. simpl in *. by rewrite Hts. }
    destruct (addOrUpdate_start this c w) as [pending w1]. simpl in Hbm, Hc.
    specialize (IH w1). rewrite Hbm in IH.
    destruct (startAll this rest w1) as [ps w2]. simpl in *. constructor.
    + split; [by left|done].
    + eapply Forall_impl; [exact IH|]. intros p [? ?]. split; [by right|done].
  - eapply Forall_impl; [apply IH|]. intros p [? ?]. split; [by right|done].
Qed.

Lemma addOrUpdate_finish_on this bm c pending w :
  startedOn this bm (c, pending) ->
  exists new,
    written (snd (addOrUpdate_finish this c pending w)) = written w ++ new
    /\ Forall (reconciledOn this bm c) new.
Proof.
  unfold startedOn. simpl. intros ->. unfold addOrUpdate_finish.
  destruct (awaitFiles _ _ _) as [settled|e] eqn:Hsettled;
    [|exists []; rewrite app_nil_r; split; [done|constructor]].
  apply awaitFiles_filter in Hsettled.
  destruct (nonNull settled) as [|f fs] eqn:Hfiles;
    [exists []; rewrite app_nil_r; split; [done|constructor]|].
  match goal with |- context [addToBitMap this ?c' ?w'] =>
    pose proof (addToBitMap_world this c' w') as (Hw & _ & _);
    destruct (addToBitMap this c' w') as [r w2]
  end.
  simpl in *. eexists. split; [exact Hw|]. constructor; [|constructor].
  split; [by rewrite writeId_indexWriteOf|].
  by rewrite writeFiles_indexWriteOf, <- Hsettled.
Qed.

Lemma finishAll_on this bm started w :
  Forall (startedOn this bm) started ->
  exists new,
    written (snd (finishAll this started w)) = written w ++ new
    /\ Forall (fun wr => exists p, In p started /\ reconciledOn this bm (fst p) wr) new.
Proof.
  revert w. induction started as [|[c pending] rest IH]; intros w Hall; cbn [finishAll].
  - exists []. rewrite app_nil_r. split; [done|constructor].
  - inversion Hall as [|? ? Hc Hrest]; subst.
    destruct (addOrUpdate_finish_on this bm c pending w Hc) as (new1 & Hw1 & Hnew1).
    destruct (addOrUpdate_finish this c pending w) as [r w1]. simpl in Hw1.
    destruct (IH w1 Hrest) as (new2 & Hw2 & Hnew2).
    destruct (finishAll this rest w1) as [rs w2]. simpl in *.
    exists (new1 ++ new2). split; [by rewrite Hw2, Hw1, <- app_assoc|].
    apply Forall_app. split.
    + eapply Forall_impl; [exact Hnew1|]. intros wr Hwr. exists (c, pending).
      split; [by left|done].
    + eapply Forall_impl; [exact Hnew2|]. intros wr (p & Hp & Hwr). exists p.
      split; [by right|done].
Qed.

(** X17.  In the branch of several components every component is reconciled
    with the index as it was before the first of them was handed over: a
    record has, of the files of the component resolved from one path, those
    that the callbacks keep when they look at that index, whatever the
    components handed over before it added to it. *)
Theorem batch_is_reconciled_with_the_index_before_it (this : AddComponents)
    (gitIgnore : list string) (stats : obj bool) (w : World) :
  exists new,
    written (snd (addMultipleComponents this gitIgnore stats w)) = written w ++ new
    /\ Forall (fun wr =>
                 exists kv c,
                   In kv (withoutTests this gitIgnore stats)
                   /\ addOneComponent this (bitMap w) gitIgnore [kv] = Ok c
                   /\ reconciledOn this (bitMap w) c wr) new.
Proof.
  unfold addMultipleComponents.
  destruct (addedOfPaths _ _ _ _) as [added|e] eqn:Hadded;
    [|exists []; rewrite app_nil_r; split; [done|constructor]].
  destruct (validateNoDuplicateIds added) as [[]|e];
    [|exists []; rewrite app_nil_r; split; [done|constructor]].
  pose proof (startAll_on this added w) as Hon.
  pose proof (startAll_world this added w) as [_ Hw1].
  destruct (startAll this added w) as [started w1]. simpl in Hon, Hw1.
  destruct (finishAll_on this (bitMap w) started w1) as (new & Hw2 & Hnew).
  { eapply Forall_impl; [exact Hon|]. by intros p [_ ?]. }
  exists new. split.
  - destruct (finishAll this started w1) as [settled w2]. simpl in Hw2.
    rewrite Hw1 in Hw2. by destruct (Promise_all settled).
  - eapply Forall_impl; [exact Hnew|]. intros wr (p & Hp & Hwr).
    rewrite List.Forall_forall in Hon. destruct (Hon p Hp) as [Hin _].
    unfold addedOfPaths in Hadded. apply (Promise_all_In _ _ _ Hadded) in Hin.
    apply List.in_map_iff in Hin as ([k d] & Hone & Hkv). by exists (k, d), (fst p).
Qed.

(** ** A failure of [add] after a write *)






(** ** What [add] hands over, component by component *)









(** ** The branch [add] takes *)


(** ** Excluded files, from the paths to the index *)









End Engine.

(** * A small workspace to run the engine on

    An identity is a bare string ([box/name]) with an optional scope and an
    optional version; the index is the list of its entries; the file system
    is the list of its paths. *)

Module Sample.

Record Id := mkId {
  scope : option string;
  bare : string;
  ver : option string
}.

Definition idStringWithoutVersion (i : Id) : string :=
  match scope i with Some s => s ++ "/" ++ bare i | None => bare i end.

Definition idString (i : Id) : string :=
  match ver i with
  | Some v => idStringWithoutVersion i ++ "@" ++ v
  | None => idStringWithoutVersion i
  end.

Definition isAt (c : ascii) : bool := Ascii.eqb c "@".

Fixpoint beforeAt (s : string) : string :=
  match s with
  | EmptyString => EmptyString
  | String c s' => if isAt c then EmptyString else String c (beforeAt s')
  end.

Fixpoint afterAt (s : string) : option string :=
  match s with
  | EmptyString => None
  | String c s' => if isAt c then Some s' else afterAt s'
  end.

Definition chunk (o : option string) : string :=
  match o with Some s => beforeAt s | None => EmptyString end.

Definition ids : @BitIdApi Id := {|
  toString := idString;
  toStringWithoutVersion := idStringWithoutVersion;
  toStringWithoutScopeAndVersion := bare;
  isEqual := fun a b => str_eqb (idString a) (idString b);
  hasVersion := fun i => bool_decide (is_Some (ver i));
  version := ver;
  parse := fun s => mkId None (beforeAt s) (afterAt s);
  getValidBitId := fun box name => mkId None (chunk box ++ "/" ++ chunk name) None;
  getVersionOnlyFromString := fun o => match o with Some s => afterAt s | None => None end
|}.

Definition Index : Type := list (Id * ComponentMap).

Definition owns (p : string) (e : Id * ComponentMap) : bool :=
  existsb (fun f => str_eqb (relativePath f) p) (cm_files (snd e)).

Definition store (idx : Index) (w : @IndexWrite Id) : Index * ComponentMap :=
  match w with
  | AddComponent i fs _ _ o _ =>
      let cm := mkComponentMap o None fs in (idx ++ [(i, cm)], cm)
  | AddFilesToComponent i fs =>
      let cm := mkComponentMap AUTHORED None fs in (idx ++ [(i, cm)], cm)
  end.

Definition index : @BitMapApi Id Index := {|
  getComponentIfExist := fun idx i =>
    option_map snd (List.find (fun e => str_eqb (bare (fst e)) (bare i)) idx);
  getComponentIdByPath := fun idx p => option_map fst (List.find (owns p) idx);
  getComponent := fun idx i =>
    match List.find (fun e => str_eqb (idString (fst e)) (idString i)) idx with
    | Some e => snd e
    | None => mkComponentMap AUTHORED None []
    end;
  getExistingBitId := fun idx s =>
    option_map fst (List.find (fun e => str_eqb (bare (fst e)) (beforeAt s)) idx);
  getAllImportedComponents := fun idx =>
    List.map snd (List.filter (fun e => origin_eqb (origin (snd e)) IMPORTED) idx);
  getConfigDirsAndFilesToIgnore := fun _ _ => ([], []);
  applyWrite := store
|}.

(** The workspace is the working directory; [deps] are the source paths of
    the dependencies of every component of the model. *)
Definition consumer (deps : list string) : @ConsumerApi Id := {|
  getPath := "";
  getPathRelativeToConsumer := fun p => p;
  toAbsolutePath := fun p => p;
  dependenciesSourcesPaths := fun _ => deps
|}.

Definition join (a b : string) : string :=
  match a with EmptyString => b | _ => a ++ "/" ++ b end.

Definition isSlash (c : ascii) : bool := Ascii.eqb c "/".

(** The segments of a path, the last one first in [cur]. *)
Fixpoint segments (s cur : string) : list string :=
  match s with
  | EmptyString => [cur]
  | String c s' =>
      if isSlash c then cur :: segments s' EmptyString
      else segments s' (cur ++ String c EmptyString)
  end.

Definition basename (p : string) : string := List.last (segments p "") "".

Definition dirname (p : string) : string :=
  List.fold_left join (List.removelast (segments p "")) "".

Fixpoint beforeDot (s : string) : string :=
  match s with
  | EmptyString => EmptyString
  | String c s' => if Ascii.eqb c "." then EmptyString else String c (beforeDot s')
  end.

(** [s] with every occurrence of [key] replaced by [value]; [skip] is
    what is left to pass over of the occurrence being replaced. *)
Fixpoint substitute (key value : string) (skip : nat) (s : string) : string :=
  match s with
  | EmptyString => EmptyString
  | String c s' =>
      match skip with
      | S n => substitute key value n s'
      | O =>
          if String.prefix key s
          then value ++ substitute key value (String.length key - 1) s'
          else String c (substitute key value 0 s')
      end
  end.

(** [format(template, calculateFileInfo(file))] for the placeholders
    [{PARENT}] and [{FILE_NAME}]. *)
Definition formatDsl (template file : string) : string :=
  substitute "{PARENT}" (basename (dirname file)) 0
    (substitute "{FILE_NAME}" (beforeDot (basename file)) 0 template).

(** [format]: how a template is formatted for a file; [ignoreList]: the
    patterns of the ignore file; [disk]: the paths that exist, each with
    whether it is a directory; [generated]: the files that carry the stamp
    of a generated file.  A formatted pattern is a literal path, and
    matches itself. *)
Definition systemWith (format : string -> string -> string) (ignoreList : list string)
    (disk : list (string * bool)) (generated : list string) : SystemApi := {|
  existsSync := fun p => existsb (fun e => str_eqb (fst e) p) disk;
  fs_existsSync := fun p => existsb (fun e => str_eqb (fst e) p) disk;
  isDir := fun p => existsb (fun e => str_eqb (fst e) p && snd e) disk;
  glob := fun p => if existsb (fun e => str_eqb (fst e) p) disk then [p] else [];
  glob_nodir := fun pattern _ =>
    List.map fst
      (List.filter (fun e =>
         negb (snd e)
         && String.prefix (String.substring 0 (String.length pattern - 2) pattern) (fst e))
         disk);
  isAutoGeneratedFile := fun p => includes generated p;
  isSupportedExtension := fun p => str_includes ".js" p;
  formatWithFileInfo := format;
  ignores := fun patterns p => includes patterns p;
  getMissingTestFiles := fun ts =>
    List.filter (fun p => negb (existsb (fun e => str_eqb (fst e) p) disk)) ts;
  retrieveIgnoreList := fun _ => ignoreList;
  arrayDiff := fun a b => List.filter (fun p => negb (includes a p)) b;
  pathNormalizeToLinux := fun p => p;
  pathJoinLinux := fun parts =>
    List.fold_left join
      (List.concat (List.map (fun o => match o with Some s => [s] | None => [] end) parts)) "";
  path_join := join;
  path_resolve := fun p => String.append "/ws/" p;
  path_normalize := fun p => p;
  path_basename := basename;
  path_dirname := dirname;
  path_parse_dir := dirname;
  path_parse_name := fun p => beforeDot (basename p);
  split_sep := fun p => segments p "";
  VERSION_DELIMITER := "@";
  DEFAULT_DIST_DIRNAME := "dist"
|}.

(** The system whose templates have no placeholder. *)
Definition system (disk : list (string * bool)) (generated : list string) : SystemApi :=
  systemWith (fun template _ => template) [] disk generated.

(** An instance as the constructor leaves it when only the identity, the
    main file and the paths are given. *)
Definition instance (paths : list string) (userId main : option string) : AddComponents :=
  mkAddComponents paths userId main None [] [] false false AUTHORED false.

End Sample.

(** ** validatePaths on the sample workspace *)

(** Two of three paths are missing; the error names the first of them. *)
Lemma validatePaths_reports_first_missing_witness :
  exists pre p post,
    ["a.js"; "gone.js"; "lost.js"] = pre ++ p :: post
    /\ Forall (fun q => existsSync (SystemApi := Sample.system [("a.js", false)] []) q = true) pre
    /\ existsSync (SystemApi := Sample.system [("a.js", false)] []) p = false
    /\ validatePaths (BitId := Sample.Id) (sys := Sample.system [("a.js", false)] [])
         ["a.js"; "gone.js"; "lost.js"]
       = Throw (PathsNotExist [p]).
Proof.
  apply (validatePaths_reports_first_missing (BitId := Sample.Id)
           (sys := Sample.system [("a.js", false)] [])).
  exists "lost.js". split; [simpl; tauto | reflexivity].
Defined.

(** C6 as the claim states it fails: with two missing paths the error
    carries the first one and not the second. *)
Lemma validatePaths_drops_later_missing_paths :
  existsSync (SystemApi := Sample.system [("a.js", false)] []) "gone.js" = false
  /\ existsSync (SystemApi := Sample.system [("a.js", false)] []) "lost.js" = false
  /\ validatePaths (BitId := Sample.Id) (sys := Sample.system [("a.js", false)] [])
       ["a.js"; "gone.js"; "lost.js"]
     = Throw (PathsNotExist ["gone.js"])
  /\ ~ In "lost.js" ["gone.js"].
Proof.
  split_and!; try reflexivity. simpl. intros [Heq|[]]. discriminate Heq.
Qed.

(** ** _getIdAccordingToExistingComponent on the sample workspace *)

Module SampleIds.

Definition imported : Sample.Id := Sample.mkId (Some "scope") "bar/foo" (Some "0.0.1").

Definition nestedDep : Sample.Id := Sample.mkId (Some "scope") "utils/is-string" (Some "0.0.1").

Definition authored : Sample.Id := Sample.mkId None "bar/old" None.

Definition baz : Sample.Id := Sample.mkId (Some "scope") "bar/baz" (Some "0.0.1").

Definition legacy : Sample.Id := Sample.mkId (Some "scope") "legacy/bar" (Some "0.0.1").

Definition bazMap : ComponentMap :=
  mkComponentMap IMPORTED (Some "components/bar/baz")
    [mkFile "components/bar/baz/baz.js" false "baz.js"].

(** [bar/foo] and [bar/baz] are imported; the index gives the link to the
    logo that lies in the directory of [bar/baz] to [bar/foo].  [bar/old]
    is authored, and tracks a file that lies where [legacy/bar], imported,
    would be derived from. *)
Definition tracked : Sample.Index :=
  [ (imported, mkComponentMap IMPORTED (Some "components/bar/foo")
                 [mkFile "components/bar/foo/foo.js" false "foo.js";
                  mkFile "components/bar/baz/logo.png" false "logo.png"]);
    (baz, bazMap);
    (legacy, mkComponentMap IMPORTED (Some "components/legacy/bar")
               [mkFile "components/legacy/bar/bar.js" false "bar.js"]);
    (nestedDep, mkComponentMap NESTED (Some "components/.dependencies/utils/is-string")
                  [mkFile "components/.dependencies/utils/is-string/is-string.js" false
                     "is-string.js"]);
    (authored, mkComponentMap AUTHORED None
                 [mkFile "src/old.js" false "old.js"; mkFile "legacy/bar.js" false "bar.js"]) ].

End SampleIds.


Example reconcile_same_version :
  _getIdAccordingToExistingComponent (ids := Sample.ids) (index := Sample.index)
    (sys := Sample.system [] [])
    (Sample.instance ["components/bar/foo"] (Some "bar/foo@0.0.1") None)
    SampleIds.tracked "bar/foo@0.0.1"
  = Ok SampleIds.imported.
Proof. reflexivity. Qed.

Example reconcile_other_version :
  _getIdAccordingToExistingComponent (ids := Sample.ids) (index := Sample.index)
    (sys := Sample.system [] [])
    (Sample.instance ["components/bar/foo"] (Some "bar/foo@0.0.2") None)
    SampleIds.tracked "bar/foo@0.0.2"
  = Throw (VersionShouldBeRemoved (Some "bar/foo@0.0.2")).
Proof. reflexivity. Qed.



(** ** [add] on the sample workspace *)

Module Workspace.

Definition paths : list (string * bool) :=
  [ ("src", true); ("src/foo.js", false); ("src/foo.ts", false); ("src/old.js", false);
    ("legacy", true); ("legacy/bar.js", false);
    ("components/bar/foo", true); ("components/bar/foo/foo.js", false);
    ("components/bar/foo/logo.png", false);
    ("components/bar/baz", true); ("components/bar/baz/baz.js", false);
    ("components/bar/baz/logo.png", false) ].

Definition disk : SystemApi := Sample.system paths [].

(** [add] over the sample index, the model's dependencies having the
    source paths [deps]. *)
Definition add (deps : list string) (this : AddComponents) (bm : Sample.Index)
  : result (@AddError Sample.Id) AddActionResults * @World Sample.Id Sample.Index :=
  add (ids := Sample.ids) (index := Sample.index) (consumer := Sample.consumer deps)
    (sys := disk) this bm.

(** A request for [src/foo.js] that says it is imported. *)
Definition importedRequest : AddComponents :=
  mkAddComponents ["src/foo.js"] None None None [] [] false false IMPORTED false.

(** A request for [src/old.js], which [bar/old] tracks already. *)
Definition takenRequest : AddComponents :=
  mkAddComponents ["src/old.js"] None None None [] [] false false AUTHORED false.

End Workspace.

Lemma index_records_are_authored_witness :
  this_origin Workspace.importedRequest = IMPORTED
  /\ (forall c w,
         written (snd (addToBitMap (ids := Sample.ids) (index := Sample.index)
                         Workspace.importedRequest c w))
         = written w ++ [AddComponent (componentId c) (files c) (mainFile c) (trackDir c)
                           AUTHORED false])
  /\ Forall (fun wr => exists cid fs m t, wr = AddComponent cid fs m t AUTHORED false)
       (written (snd (Workspace.add [] Workspace.importedRequest SampleIds.tracked))).
Proof.
  split; [reflexivity|].
  apply (index_records_are_authored (ids := Sample.ids) (index := Sample.index)
           (consumer := Sample.consumer []) (sys := Workspace.disk)
           Workspace.importedRequest SampleIds.tracked).
  reflexivity.
Defined.

Example imported_request_is_written_authored :
  written (snd (Workspace.add [] Workspace.importedRequest SampleIds.tracked))
  = [AddComponent (Sample.mkId None "src/foo" None) [mkFile "src/foo.js" false "foo.js"]
       None None AUTHORED false].
Proof. reflexivity. Qed.


(** ** Reconciliation with the sample index *)

Module Reconcile.

Definition world : @World Sample.Id Sample.Index := mkWorld SampleIds.tracked ∅ [].

Definition logo : ComponentMapFile := mkFile "components/bar/foo/logo.png" false "logo.png".

(** [bit add components/bar/foo --id bar/foo]: the imported component is
    added again under its own identity. *)
Definition fooRequest : AddComponents :=
  Sample.instance ["components/bar/foo"] (Some "bar/foo") None.

Definition fooComponent : @AddedComponent Sample.Id :=
  mkAdded SampleIds.imported
    [mkFile "components/bar/foo/foo.js" false "foo.js"; logo] None (Some "components/bar/foo").

(** [bit add components/bar/baz/logo.png --id bar/baz] *)
Definition bazLogoRequest : AddComponents :=
  Sample.instance ["components/bar/baz/logo.png"] (Some "bar/baz") None.



Definition addOrUpdate (deps : list string) (this : AddComponents)
    (c : @AddedComponent Sample.Id) (w : @World Sample.Id Sample.Index) :=
  addOrUpdateComponentInBitMap (ids := Sample.ids) (index := Sample.index)
    (consumer := Sample.consumer deps) (sys := Workspace.disk) this c w.

End Reconcile.

Example fooComponent_is_resolved :
  addOneComponent (ids := Sample.ids) (index := Sample.index)
    (consumer := Sample.consumer ["logo.png"]) (sys := Workspace.disk)
    Reconcile.fooRequest SampleIds.tracked [] [("components/bar/foo", true)]
  = Ok Reconcile.fooComponent.
Proof. reflexivity. Qed.

(** The logo in the directory of [bar/foo] is the link to a file of a
    dependency: it is dropped, and [foo.js] alone is handed to the index. *)
Lemma imported_file_needs_the_owner_id_witness :
  let out := Reconcile.addOrUpdate ["logo.png"] Reconcile.fooRequest Reconcile.fooComponent
               Reconcile.world in
  fst (resumeFileCallback (consumer := Sample.consumer ["logo.png"])
         (sys := Workspace.disk) SampleIds.imported
         (getComponentIfExist (BitMapApi := Sample.index) SampleIds.tracked SampleIds.imported)
         (fileTask (ids := Sample.ids) (index := Sample.index)
            (consumer := Sample.consumer ["logo.png"]) (sys := Workspace.disk)
            Reconcile.fooRequest SampleIds.tracked SampleIds.imported
            (getComponentIfExist (BitMapApi := Sample.index) SampleIds.tracked
               SampleIds.imported)
            Reconcile.logo))
  = Ok None
  /\ exists new,
       written (snd out) = [] ++ new
       /\ Forall (fun wr =>
                    Forall (fun g => relativePath g <> "components/bar/foo/logo.png")
                      (writeFiles wr)) new.
Proof.
  destruct (imported_file_needs_the_owner_id (ids := Sample.ids) (index := Sample.index)
              (consumer := Sample.consumer ["logo.png"]) (sys := Workspace.disk)
              Reconcile.fooRequest Reconcile.fooComponent Reconcile.world Reconcile.logo)
    as (_ & _ & Hdropped).
  - simpl. tauto.
  - reflexivity.
  - reflexivity.
  - apply (Hdropped "bar/foo"); reflexivity.
Defined.

Example fooComponent_is_written_without_the_logo :
  written (snd (Reconcile.addOrUpdate ["logo.png"] Reconcile.fooRequest Reconcile.fooComponent
                  Reconcile.world))
  = [AddComponent SampleIds.imported [mkFile "components/bar/foo/foo.js" false "foo.js"]
       None None AUTHORED false].
Proof. reflexivity. Qed.

(** C1 as the claim states it fails: the link to the logo in the
    directory of [bar/baz] is generated for an unsupported file of a
    dependency of [bar/baz], the index gives it to [bar/foo], imported, and
    the user adds it as [bar/baz]: the file is not dropped, the add fails
    with [IncorrectIdForImportedComponent]. *)
Lemma generated_file_of_another_owner_is_rejected :
  let path := "components/bar/baz/logo.png" in
  isAutoGeneratedFile (SystemApi := Workspace.disk) path = false
  /\ getComponentIdByPath (BitMapApi := Sample.index) SampleIds.tracked path
     = Some SampleIds.imported
  /\ origin (getComponent (BitMapApi := Sample.index) SampleIds.tracked SampleIds.imported)
     = IMPORTED
  /\ getComponentIfExist (BitMapApi := Sample.index) SampleIds.tracked SampleIds.baz
     = Some SampleIds.bazMap
  /\ _isGeneratedForUnsupportedFiles (consumer := Sample.consumer ["logo.png"])
       (sys := Workspace.disk) path SampleIds.baz (Some SampleIds.bazMap)
     = Ok (E := @AddError Sample.Id) true
  /\ Workspace.add ["logo.png"] Reconcile.bazLogoRequest SampleIds.tracked
     = (Throw (IncorrectIdForImportedComponent "scope/bar/foo" "bar/baz" path),
        Reconcile.world).
Proof. split_and!; reflexivity. Qed.


Example taken_file_is_returned_as_a_warning :
  Workspace.add [] Workspace.takenRequest SampleIds.tracked
  = (Ok (mkAddActionResults [] {["bar/old" := ["src/old.js"]]}),
     mkWorld SampleIds.tracked {["bar/old" := ["src/old.js"]]} []).
Proof. vm_compute. reflexivity. Qed.


(** ** An owner under a name that every object has *)

Module Inherited.

(** A component of the workspace of the name [constructor], and an
    imported one. *)
Definition owner : Sample.Id := Sample.mkId None "constructor" None.
Definition library : Sample.Id := Sample.mkId (Some "scope") "ui/logo" (Some "0.0.1").

Definition tracked : Sample.Index :=
  [ (owner, mkComponentMap AUTHORED None
              [mkFile "src/old.js" false "old.js";
               mkFile "components/bar/foo/foo.js" false "foo.js"]);
    (library, mkComponentMap IMPORTED (Some "components/ui/logo")
                [mkFile "components/bar/foo/logo.png" false "logo.png"]) ].

(** [bit add src/old.js] *)
Definition one : AddComponents := Sample.instance ["src/old.js"] None None.

(** [bit add src/foo.js src/old.js] *)
Definition batch : AddComponents := Sample.instance ["src/foo.js"; "src/old.js"] None None.

(** [bit add components/bar/foo] *)
Definition directory : AddComponents := Sample.instance ["components/bar/foo"] None None.

Definition barFoo : Sample.Id := Sample.mkId None "bar/foo" None.

Definition callback (f : ComponentMapFile) :=
  fileCallback (ids := Sample.ids) (index := Sample.index) (consumer := Sample.consumer [])
    (sys := Workspace.disk) directory tracked barFoo None f ∅.

End Inherited.

(** [src/old.js] is tracked by [constructor]: where the warning would be
    recorded the callback throws, the add fails with it, and neither a
    warning nor a record is left. *)
Example owner_named_constructor_fails_the_add :
  inheritedKey (toString (BitIdApi := Sample.ids) Inherited.owner) = true
  /\ Workspace.add [] Inherited.one Inherited.tracked
     = (Throw TypeError, mkWorld Inherited.tracked ∅ []).
Proof. split; reflexivity. Qed.

(** In the directory the first file is tracked by [constructor] and the
    second by an imported component: both callbacks reject, and the add
    fails with the rejection of the first. *)
Example type_error_comes_before_the_missing_identity :
  Inherited.callback (mkFile "components/bar/foo/foo.js" false "foo.js")
  = (Rejected TypeError, ∅)
  /\ Inherited.callback (mkFile "components/bar/foo/logo.png" false "logo.png")
     = (Rejected (MissingComponentIdForImportedComponent "bar/foo"), ∅)
  /\ Workspace.add [] Inherited.directory Inherited.tracked
     = (Throw TypeError, mkWorld Inherited.tracked ∅ []).
Proof. split_and!; reflexivity. Qed.

(** In the batch [src/foo] is handed to the index before the rejection of
    [src/old] is reported. *)
Example type_error_is_reported_after_a_write :
  fst (Workspace.add [] Inherited.batch Inherited.tracked) = Throw TypeError
  /\ written (snd (Workspace.add [] Inherited.batch Inherited.tracked))
     = [AddComponent (Sample.mkId None "src/foo" None) [mkFile "src/foo.js" false "foo.js"]
          None None AUTHORED false].
Proof. split; reflexivity. Qed.

(** ** Several paths on the sample workspace *)

Module Batch.

(** [bit add src/foo.js src/foo.ts]: both paths derive [src/foo]. *)
Definition sameName : AddComponents := Sample.instance ["src/foo.js"; "src/foo.ts"] None None.

(** [bit add src/foo.js src/old.js] *)
Definition twoPaths : AddComponents := Sample.instance ["src/foo.js"; "src/old.js"] None None.

Definition fooJs : @AddedComponent Sample.Id :=
  mkAdded (Sample.mkId None "src/foo" None) [mkFile "src/foo.js" false "foo.js"] None None.

Definition fooTs : @AddedComponent Sample.Id :=
  mkAdded (Sample.mkId None "src/foo" None) [mkFile "src/foo.ts" false "foo.ts"] None None.

Definition added (this : AddComponents) (stats : obj bool) :=
  addedOfPaths (ids := Sample.ids) (index := Sample.index) (consumer := Sample.consumer [])
    (sys := Workspace.disk) this SampleIds.tracked [] stats.

End Batch.






(** Two paths of the same name: the batch fails, the error carries the
    one group, and nothing is handed to the index. *)
Example same_name_is_a_duplicate :
  Workspace.add [] Batch.sameName SampleIds.tracked
  = (Throw (DuplicateIds [("src/foo", [Batch.fooJs; Batch.fooTs])]), Reconcile.world).
Proof. reflexivity. Qed.

Module Scoped.

(** The identity saved in the index can have more than the string it is
    looked up by, a scope or a version.  This index looks the string up
    among the identities with their scope first, and among the bare
    identities then. *)
Definition index : @BitMapApi Sample.Id Sample.Index := {|
  getComponentIfExist := getComponentIfExist (BitMapApi := Sample.index);
  getComponentIdByPath := getComponentIdByPath (BitMapApi := Sample.index);
  getComponent := getComponent (BitMapApi := Sample.index);
  getExistingBitId := fun idx s =>
    match List.find (fun e => str_eqb (Sample.idStringWithoutVersion (fst e))
                                (Sample.beforeAt s)) idx with
    | Some e => Some (fst e)
    | None => getExistingBitId (BitMapApi := Sample.index) idx s
    end;
  getAllImportedComponents := getAllImportedComponents (BitMapApi := Sample.index);
  getConfigDirsAndFilesToIgnore := getConfigDirsAndFilesToIgnore (BitMapApi := Sample.index);
  applyWrite := applyWrite (BitMapApi := Sample.index)
|}.

(** Two components of the name [button], of the scopes [team] and [lib]. *)
Definition teamButton : Sample.Id := Sample.mkId (Some "team") "button" (Some "0.0.1").
Definition libButton : Sample.Id := Sample.mkId (Some "lib") "button" (Some "0.0.1").

Definition tracked : Sample.Index :=
  [ (teamButton, mkComponentMap AUTHORED None [mkFile "team/button.js" false "button.js"]);
    (libButton, mkComponentMap AUTHORED None [mkFile "lib/button.js" false "button.js"]) ].

Definition disk : SystemApi :=
  Sample.system
    [ ("team", true); ("team/button.js", false); ("team/button.css", false);
      ("lib", true); ("lib/button.js", false); ("lib/button.css", false) ] [].

(** [bit add team/button.css lib/button.css] *)
Definition request : AddComponents :=
  Sample.instance ["team/button.css"; "lib/button.css"] None None.

Definition teamCss : ComponentMapFile := mkFile "team/button.css" false "button.css".
Definition libCss : ComponentMapFile := mkFile "lib/button.css" false "button.css".

Definition resolved : list (@AddedComponent Sample.Id) :=
  [mkAdded teamButton [teamCss] None None; mkAdded libButton [libCss] None None].

Definition add : result (@AddError Sample.Id) AddActionResults * @World Sample.Id Sample.Index :=
  add (ids := Sample.ids) (index := index) (consumer := Sample.consumer []) (sys := disk)
    request tracked.

End Scoped.


(** ** The main file on the sample workspace *)

Module MainFile.

(** [bit add src/foo.js --main src/old.js] *)
Definition existing : AddComponents :=
  Sample.instance ["src/foo.js"] None (Some "src/old.js").

(** [bit add src/foo.js --main src/gone.js] *)
Definition missing : AddComponents :=
  Sample.instance ["src/foo.js"] None (Some "src/gone.js").

Definition fooJs : ComponentMapFile := mkFile "src/foo.js" false "foo.js".

Definition addMainFileToFiles (this : AddComponents) (fs : list ComponentMapFile) :=
  _addMainFileToFiles (BitId := Sample.Id) (consumer := Sample.consumer [])
    (sys := Workspace.disk) this [] fs.

End MainFile.

(** A main file that exists, is not ignored and is no directory is added
    to the files. *)
Lemma main_file_is_checked_when_it_exists_witness :
  exists fs2,
    MainFile.addMainFileToFiles MainFile.existing [MainFile.fooJs] = Ok (Some "src/old.js", fs2)
    /\ (exists f, In f fs2 /\ relativePath f = "src/old.js")
    /\ (forall f, In f [MainFile.fooJs] -> In f fs2).
Proof.
  destruct (main_file_is_checked_when_it_exists (BitId := Sample.Id)
              (consumer := Sample.consumer []) (sys := Workspace.disk)
              MainFile.existing [] [MainFile.fooJs] "src/old.js" [MainFile.fooJs])
    as (_ & _ & _ & Hadded); [reflexivity | reflexivity |].
  apply Hadded; reflexivity.
Defined.

(** C8 as the claim states it fails.
    - The main file [src/gone.js] is specified, the call returns it as the
      resolved main file, and it neither exists nor is in the files; [add]
      hands it to the index so.
    - The main file [src/old.js] exists and the call adds it to the files,
      but [bar/old] tracks it: the reconciliation with the index takes it
      away as a warning, and [add] hands the component over with the main
      file [src/old.js] and the one file [src/foo.js]. *)
Lemma missing_main_file_is_returned_unchecked :
  (fs_existsSync (SystemApi := Workspace.disk) "src/gone.js" = false
   /\ MainFile.addMainFileToFiles MainFile.missing [MainFile.fooJs]
      = Ok (Some "src/gone.js", [MainFile.fooJs])
   /\ written (snd (Workspace.add [] MainFile.missing SampleIds.tracked))
      = [AddComponent (Sample.mkId None "src/foo" None) [MainFile.fooJs] (Some "src/gone.js")
           None AUTHORED false])
  /\ (fs_existsSync (SystemApi := Workspace.disk) "src/old.js" = true
      /\ MainFile.addMainFileToFiles MainFile.existing [MainFile.fooJs]
         = Ok (Some "src/old.js", [MainFile.fooJs; mkFile "src/old.js" false "old.js"])
      /\ written (snd (Workspace.add [] MainFile.existing SampleIds.tracked))
         = [AddComponent (Sample.mkId None "src/foo" None) [MainFile.fooJs] (Some "src/old.js")
              None AUTHORED false]
      /\ fst (Workspace.add [] MainFile.existing SampleIds.tracked)
         = Ok (mkAddActionResults [mkAddResult "src/foo" [MainFile.fooJs]]
                 {["bar/old" := ["src/old.js"]]})).
Proof. split_and!; reflexivity. Qed.

(** ** Exclusion on the sample workspace *)

Module Exclusion.

(** The sample workspace, with templates formatted for a file. *)
Definition disk : SystemApi := Sample.systemWith Sample.formatDsl [] Workspace.paths [].

Definition add (this : AddComponents) :=
  add (ids := Sample.ids) (index := Sample.index) (consumer := Sample.consumer [])
    (sys := disk) this SampleIds.tracked.

(** [bit add src --exclude src/foo.ts] *)
Definition request : AddComponents :=
  mkAddComponents ["src"] None None None [] ["src/foo.ts"] false false AUTHORED false.

(** [bit add src --exclude '{PARENT}/{FILE_NAME}.ts'] *)
Definition byPattern : AddComponents :=
  mkAddComponents ["src"] None None None [] ["{PARENT}/{FILE_NAME}.ts"] false false
    AUTHORED false.

(** [bit add src --main src/foo.ts --exclude '{PARENT}/{FILE_NAME}.ts'] *)
Definition mainByPattern : AddComponents :=
  mkAddComponents ["src"] None (Some "src/foo.ts") None [] ["{PARENT}/{FILE_NAME}.ts"]
    false false AUTHORED false.


(** The ignore set of [add] for the sample index. *)
Definition ignored : list string :=
  ["components/bar/foo/dist/**"; "components/bar/baz/dist/**"; "components/legacy/bar/dist/**"].

End Exclusion.

(** For the directory [src] the pattern resolves to nothing, and [add]
    leaves the ignore set as it was; for the files of [src] it resolves to
    [src/foo.ts], which [removeExcludedFiles] takes out. *)
Example pattern_is_resolved_for_the_files :
  resolvePaths (BitId := Sample.Id) (index := Sample.index) (consumer := Sample.consumer [])
    (sys := Exclusion.disk) Exclusion.byPattern SampleIds.tracked
  = Ok (Exclusion.ignored, [("src", true)])
  /\ getFilesAccordingToDsl (consumer := Sample.consumer []) (sys := Exclusion.disk)
       Exclusion.ignored ["src/foo.js"; "src/foo.ts"; "src/old.js"]
       (exclude Exclusion.byPattern)
     = ["src/foo.ts"].
Proof. split; reflexivity. Qed.


Example excluded_pattern_is_not_written :
  written (snd (Exclusion.add Exclusion.byPattern))
  = [AddComponent (Sample.mkId None "ws/src" None) [mkFile "src/foo.js" false "foo.js"]
       None None AUTHORED false].
Proof. reflexivity. Qed.

(** The pattern resolves to the main file of [src]: the component is left
    without files, and nothing is handed to the index. *)
Example excluded_main_file_empties_the_component :
  option_map files
    (match addOneComponent (ids := Sample.ids) (index := Sample.index)
             (consumer := Sample.consumer []) (sys := Exclusion.disk)
             Exclusion.mainByPattern SampleIds.tracked Exclusion.ignored [("src", true)] with
     | Ok c => Some c
     | Throw _ => None
     end)
  = Some []
  /\ fst (Exclusion.add Exclusion.mainByPattern) = Ok (mkAddActionResults [] ∅)
  /\ written (snd (Exclusion.add Exclusion.mainByPattern)) = [].
Proof. split_and!; reflexivity. Qed.


(** In [add], of the files of [src] the excluded one is not handed to the
    index (and [src/old.js], which [bar/old] tracks, is a warning). *)
Example excluded_file_is_not_written :
  written (snd (Workspace.add [] Exclusion.request SampleIds.tracked))
  = [AddComponent (Sample.mkId None "ws/src" None) [mkFile "src/foo.js" false "foo.js"]
       None None AUTHORED false].
Proof. reflexivity. Qed.

Module IgnoredMatch.

(** The path [p] from the working directory, which is the workspace. *)
Definition fromHere (p : string) : string :=
  if String.prefix "./" p then String.substring 2 (String.length p - 2) p else p.

Definition consumer : @ConsumerApi Sample.Id := {|
  getPath := "";
  getPathRelativeToConsumer := fromHere;
  toAbsolutePath := fun p => p;
  dependenciesSourcesPaths := fun _ => []
|}.

(** The ignore file lists [src/foo.ts]. *)
Definition disk : SystemApi :=
  Sample.systemWith (fun template _ => template) ["src/foo.ts"]
    [ ("src", true); ("src/foo.js", false); ("src/foo.ts", false);
      ("./src", true); ("./src/foo.js", false); ("./src/foo.ts", false) ] [].

(** [bit add ./src/foo.ts --exclude src/foo.ts] *)
Definition request : AddComponents :=
  mkAddComponents ["./src/foo.ts"] None None None [] ["src/foo.ts"] false false AUTHORED false.

Definition add : result (@AddError Sample.Id) AddActionResults * @World Sample.Id Sample.Index :=
  add (ids := Sample.ids) (index := Sample.index) (consumer := consumer) (sys := disk)
    request [].

End IgnoredMatch.

(** A match of an exclude pattern that the ignore set ignores already is
    not among the resolved excluded paths.  Here the ignore set, which
    takes a path as it is spelled, lets [./src/foo.ts] through; the
    pattern resolves to [src/foo.ts], which is ignored, so nothing is
    excluded, and the file is handed to the index. *)
Example ignored_match_is_not_excluded :
  resolvePaths (BitId := Sample.Id) (index := Sample.index) (consumer := IgnoredMatch.consumer)
    (sys := IgnoredMatch.disk) IgnoredMatch.request []
  = Ok (["src/foo.ts"], [("./src/foo.ts", false)])
  /\ getFilesAccordingToDsl (consumer := IgnoredMatch.consumer) (sys := IgnoredMatch.disk)
       ["src/foo.ts"] ["src/foo.ts"] (exclude IgnoredMatch.request)
     = []
  /\ written (snd IgnoredMatch.add)
     = [AddComponent (Sample.mkId None "src/foo" None) [mkFile "src/foo.ts" false "foo.ts"]
          None None AUTHORED false].
Proof. split_and!; reflexivity. Qed.

(** ** Two directories on the sample workspace *)

Module TwoDirs.

(** [bit add src legacy --id my/id] *)
Definition withId : AddComponents := Sample.instance ["src"; "legacy"] (Some "my/id") None.


Definition stats : obj bool := [("src", true); ("legacy", true)].

Definition ignored : list string :=
  ["components/bar/foo/dist/**"; "components/bar/baz/dist/**"; "components/legacy/bar/dist/**"].

Definition myId : Sample.Id := Sample.mkId None "my/id" None.

End TwoDirs.

Example two_directories_resolve :
  resolvePaths (BitId := Sample.Id) (index := Sample.index) (consumer := Sample.consumer [])
    (sys := Workspace.disk) TwoDirs.withId SampleIds.tracked
  = Ok (TwoDirs.ignored, TwoDirs.stats).
Proof. reflexivity. Qed.


Example two_directories_with_id_are_one_component :
  option_map (fun res => List.map id (addedComponents res))
    (match fst (Workspace.add [] TwoDirs.withId SampleIds.tracked) with
     | Ok res => Some res
     | Throw _ => None
     end)
  = Some ["my/id"]
  /\ List.map (fun wr => List.map relativePath (writeFiles wr))
       (written (snd (Workspace.add [] TwoDirs.withId SampleIds.tracked)))
     = [["src/foo.js"; "src/foo.ts"]].
Proof. split; reflexivity. Qed.

Module TestPath.

(** [bit add src/foo.js src/foo.ts --tests src/foo.ts] *)
Definition request : AddComponents :=
  mkAddComponents ["src/foo.js"; "src/foo.ts"] None None None ["src/foo.ts"] [] false false
    AUTHORED false.

End TestPath.


(** ** The track directory on the sample workspace *)

(** [components/bar/foo] alone, authored and with nothing excluded, is
    the track directory of the component resolved from it. *)
Lemma trackDir_is_the_only_authored_directory_witness :
  exclude Reconcile.fooRequest = []
  /\ this_origin Reconcile.fooRequest = AUTHORED
  /\ exists p,
       [("components/bar/foo", true)] = [(p, true)]
       /\ "components/bar/foo"
          = getPathRelativeToConsumer (ConsumerApi := Sample.consumer ["logo.png"]) p.
Proof.
  apply (trackDir_is_the_only_authored_directory (ids := Sample.ids) (index := Sample.index)
           (consumer := Sample.consumer ["logo.png"]) (sys := Workspace.disk)
           Reconcile.fooRequest SampleIds.tracked [] [("components/bar/foo", true)]
           Reconcile.fooComponent "components/bar/foo"); reflexivity.
Defined.

(** [bar/foo] is imported in the index: what is resolved with the track
    directory [components/bar/foo] is handed over without it. *)
Lemma imported_component_has_no_trackDir_witness :
  exists new,
    written (snd (Reconcile.addOrUpdate ["logo.png"] Reconcile.fooRequest
                    Reconcile.fooComponent Reconcile.world))
    = written Reconcile.world ++ new
    /\ Forall (fun wr =>
                 match wr with
                 | AddComponent _ _ _ trackDir _ _ => trackDir = None
                 | AddFilesToComponent _ _ => True
                 end) new.
Proof.
  apply (imported_component_has_no_trackDir (ids := Sample.ids) (index := Sample.index)
           (consumer := Sample.consumer ["logo.png"]) (sys := Workspace.disk)
           Reconcile.fooRequest Reconcile.fooComponent Reconcile.world).
  reflexivity.
Defined.

(** ** Files nobody claims on the sample workspace *)

(** [src/foo.js] is tracked by no component: [src/foo] is handed to the
    index as it was resolved. *)
Lemma unclaimed_component_is_added_whole_witness :
  Reconcile.addOrUpdate [] Batch.twoPaths Batch.fooJs Reconcile.world
  = (Ok (Some (fst (addToBitMap (ids := Sample.ids) (index := Sample.index)
                      Batch.twoPaths Batch.fooJs Reconcile.world))),
     snd (addToBitMap (ids := Sample.ids) (index := Sample.index)
            Batch.twoPaths Batch.fooJs Reconcile.world)).
Proof.
  apply (unclaimed_component_is_added_whole (ids := Sample.ids) (index := Sample.index)
           (consumer := Sample.consumer []) (sys := Workspace.disk)
           Batch.twoPaths Batch.fooJs Reconcile.world).
  - discriminate.
  - constructor; [|constructor]. split_and!; reflexivity.
Defined.

(** ** A generated file on the sample workspace *)

Module Generated.

(** [src/index.js] carries the stamp of a generated file. *)
Definition disk : SystemApi :=
  Sample.system [("src", true); ("src/foo.js", false); ("src/index.js", false)]
    ["src/index.js"].

Definition indexJs : ComponentMapFile := mkFile "src/index.js" false "index.js".

Definition src : @AddedComponent Sample.Id :=
  mkAdded (Sample.mkId None "ws/src" None) [mkFile "src/foo.js" false "foo.js"; indexJs]
    None (Some "src").

Definition request : AddComponents := Sample.instance ["src"] None None.

Definition addOrUpdate :=
  addOrUpdateComponentInBitMap (ids := Sample.ids) (index := Sample.index)
    (consumer := Sample.consumer []) (sys := disk) request src Reconcile.world.

End Generated.

Example generated_src_is_resolved :
  addOneComponent (ids := Sample.ids) (index := Sample.index)
    (consumer := Sample.consumer []) (sys := Generated.disk)
    Generated.request SampleIds.tracked [] [("src", true)]
  = Ok Generated.src.
Proof. reflexivity. Qed.

Lemma generated_file_is_dropped_quietly_witness :
  (forall ws,
      fileCallback (ids := Sample.ids) (index := Sample.index)
        (consumer := Sample.consumer []) (sys := Generated.disk)
        Generated.request SampleIds.tracked (componentId Generated.src)
        (getComponentIfExist (BitMapApi := Sample.index) SampleIds.tracked
           (componentId Generated.src))
        Generated.indexJs ws
      = (ReturnedNull, ws))
  /\ exists new,
       written (snd Generated.addOrUpdate) = written Reconcile.world ++ new
       /\ Forall (fun wr =>
                    Forall (fun g => relativePath g <> relativePath Generated.indexJs)
                      (writeFiles wr)) new.
Proof.
  apply (generated_file_is_dropped_quietly (ids := Sample.ids) (index := Sample.index)
           (consumer := Sample.consumer []) (sys := Generated.disk)
           Generated.request Generated.src Reconcile.world Generated.indexJs).
  reflexivity.
Defined.

Example generated_file_is_not_written :
  written (snd Generated.addOrUpdate)
  = [AddComponent (Sample.mkId None "ws/src" None) [mkFile "src/foo.js" false "foo.js"]
       None (Some "src") AUTHORED false].
Proof. reflexivity. Qed.

(** ** A batch that fails late on the sample workspace *)

Module LateFailure.

(** [bit add src/foo.js components/bar/foo/foo.js]: the second path is a
    file of [bar/foo], imported. *)
Definition request : AddComponents :=
  Sample.instance ["src/foo.js"; "components/bar/foo/foo.js"] None None.

End LateFailure.

(** The batch fails for the second path once the component of the first
    is handed to the index. *)
Example late_failure_leaves_the_first_component :
  fst (Workspace.add [] LateFailure.request SampleIds.tracked)
  = Throw (MissingComponentIdForImportedComponent "foo/foo")
  /\ written (snd (Workspace.add [] LateFailure.request SampleIds.tracked))
     = [AddComponent (Sample.mkId None "src/foo" None) [mkFile "src/foo.js" false "foo.js"]
          None None AUTHORED false].
Proof. split; reflexivity. Qed.


(** ** Paths that are all excluded on the sample workspace *)

Module AllExcluded.

(** [bit add src/foo.js --exclude src/foo.js] *)
Definition request : AddComponents :=
  mkAddComponents ["src/foo.js"] None None None [] ["src/foo.js"] false false AUTHORED false.

End AllExcluded.

Lemma ignored_paths_fail_with_NoFiles_witness :
  Workspace.add [] AllExcluded.request SampleIds.tracked
  = (Throw (NoFiles ["src/foo.js"]), Reconcile.world).
Proof.
  apply (ignored_paths_fail_with_NoFiles (ids := Sample.ids) (index := Sample.index)
           (consumer := Sample.consumer []) (sys := Workspace.disk)
           AllExcluded.request SampleIds.tracked).
  - reflexivity.
  - discriminate.
  - constructor; [|constructor]. reflexivity.
Defined.

(** ** An empty directory on the sample workspace *)

Module EmptyDir.

(** [assets] is a directory with no file in it. *)
Definition disk : SystemApi :=
  Sample.system [("src", true); ("src/foo.js", false); ("assets", true)] [].

(** [bit add src assets --id my/id] *)
Definition request : AddComponents := Sample.instance ["src"; "assets"] (Some "my/id") None.

(** [bit add assets] *)
Definition alone : AddComponents := Sample.instance ["assets"] None None.

End EmptyDir.

Lemma empty_directory_fails_the_component_witness :
  (exists e,
      addOneComponent (ids := Sample.ids) (index := Sample.index)
        (consumer := Sample.consumer []) (sys := EmptyDir.disk)
        EmptyDir.request SampleIds.tracked [] [("src", true); ("assets", true)] = Throw e)
  /\ addOneComponent (ids := Sample.ids) (index := Sample.index)
       (consumer := Sample.consumer []) (sys := EmptyDir.disk)
       EmptyDir.alone SampleIds.tracked [] [("assets", true)] = Throw EmptyDirectory.
Proof.
  split.
  - apply (empty_directory_fails_the_component (ids := Sample.ids) (index := Sample.index)
             (consumer := Sample.consumer []) (sys := EmptyDir.disk)
             EmptyDir.request SampleIds.tracked [] [("src", true); ("assets", true)] "assets").
    + right. left. reflexivity.
    + reflexivity.
  - apply (empty_directory_fails_the_component (ids := Sample.ids) (index := Sample.index)
             (consumer := Sample.consumer []) (sys := EmptyDir.disk)
             EmptyDir.alone SampleIds.tracked [] [("assets", true)] "assets");
      [left|..]; reflexivity.
Defined.

(** ** A file in two components of a batch on the sample workspace *)

Module Overlap.

(** [bit add src src/foo.js]: [src/foo.js] is a file of both components. *)
Definition request : AddComponents := Sample.instance ["src"; "src/foo.js"] None None.

End Overlap.

(** Both components are handed over with [src/foo.js]: the second was
    looked up before the first was written. *)
Example overlapping_components_share_the_file :
  List.map (fun wr => (writeKey (ids := Sample.ids) wr, List.map relativePath (writeFiles wr)))
    (written (snd (Workspace.add [] Overlap.request SampleIds.tracked)))
  = [("ws/src", ["src/foo.js"; "src/foo.ts"]); ("src/foo", ["src/foo.js"])].
Proof. reflexivity. Qed.
